(** * The observer manager of the stack operator

    Shallow embedding of
    [stack-operator/pkg/controller/elasticsearch/observer/manager.go]:
    the [Manager] keeps one [*Observer] per cluster in a map guarded by a
    read/write lock.  Observers live on a heap and are referred to by
    pointer, so that "the same observer" and "a new observer" are
    distinguishable; every lock-delimited critical section of the source is
    one primitive action of the [Go] monad below. *)

From stdpp Require Import gmap strings list fin_maps.

(** ** Resource identities *)

(** [k8s.io/apimachinery/pkg/types.NamespacedName]: a comparable struct of
    two strings, used as the key of the manager's map. *)
Record NamespacedName : Type := mkNamespacedName {
  Namespace : string;
  Name : string
}.

#[global] Instance NamespacedName_eq_dec : EqDecision NamespacedName.
Proof. solve_decision. Defined.

#[global] Instance NamespacedName_countable : Countable NamespacedName.
Proof.
  refine (inj_countable' (λ n, (Namespace n, Name n))
                         (λ p, mkNamespacedName p.1 p.2) _).
  by intros [].
Defined.

(** Observers are heap allocated; a [*Observer] is an address. *)
Definition ptr : Type := nat.

(** What the ghost log records: calls of [NewObserver] and of [Stop]. *)
Inductive Event : Type :=
| Created (p : ptr)
| Stopped (p : ptr).

#[global] Instance Event_eq_dec : EqDecision Event.
Proof. solve_decision. Defined.

Section Manager.

(** The collaborators of the manager that the package imports: the
    Elasticsearch client with its [Equal] method, the observer [Settings],
    the observed [State] and its zero value. *)
Context {Client Settings State : Type}.
Context (Equal : Client → Client → bool).
Context (unknown : State).

(** ** Data model *)

(** Modelled from the spec: the [Observer] struct, declared in the same
    package outside this file.  It is bound to one cluster and one client,
    carries the settings it was created with, runs until stopped and caches
    the last state it observed. *)
Record Observer : Type := mkObserver {
  cluster : NamespacedName;
  esClient : Client;
  obsSettings : Settings;
  stopped : bool;
  lastState : State
}.

(** [type Manager struct { observers; lock; settings }].  The lock carries
    no data; its critical sections are the primitive actions below. *)
Record Manager : Type := mkManager {
  observers : gmap NamespacedName ptr;
  settings : Settings
}.

(** The manager, the heap of observers ever allocated (an observer's
    address is its index) and the log of observer creations and stops. *)
Record World : Type := mkWorld {
  mgr : Manager;
  heap : list Observer;
  events : list Event
}.

(** [func NewManager(settings Settings) *Manager] *)
Definition NewManager (s : Settings) : Manager :=
  {| observers := ∅; settings := s |}.

Definition initWorld (s : Settings) : World :=
  {| mgr := NewManager s; heap := []; events := [] |}.

(** ** A state and failure monad

    [None] is a Go panic (a dereference of an address that holds no
    observer). *)
Definition Go (A : Type) : Type := World → option (A * World).

#[global] Instance Go_ret : MRet Go := λ A a w, Some (a, w).
#[global] Instance Go_bind : MBind Go := λ A B f m w,
  match m w with
  | Some (a, w') => f a w'
  | None => None
  end.

(** *** Critical sections on the manager *)

(** [m.lock.RLock(); observer, exists := m.observers[clusterName];
    m.lock.RUnlock()] *)
Definition lookupObserver (clusterName : NamespacedName) : Go (option ptr) :=
  λ w, Some (observers (mgr w) !! clusterName, w).

(** [m.lock.Lock(); m.observers[clusterName] = observer; m.lock.Unlock()] *)
Definition storeObserver (clusterName : NamespacedName) (observer : ptr)
  : Go unit :=
  λ w, Some (tt, {| mgr := {| observers := <[clusterName := observer]> (observers (mgr w));
                              settings := settings (mgr w) |};
                    heap := heap w;
                    events := events w |}).

(** [m.lock.Lock(); delete(m.observers, clusterName); m.lock.Unlock()] *)
Definition deleteObserver (clusterName : NamespacedName) : Go unit :=
  λ w, Some (tt, {| mgr := {| observers := delete clusterName (observers (mgr w));
                              settings := settings (mgr w) |};
                    heap := heap w;
                    events := events w |}).

(** [m.settings] *)
Definition getSettings : Go Settings :=
  λ w, Some (settings (mgr w), w).

(** *** The observer's interface *)

(** Modelled from the spec: [NewObserver(cluster, esClient, settings)]
    allocates a running observer bound to its arguments, whose cached state
    is still the unknown one, and returns its address. *)
Definition NewObserver (clusterName : NamespacedName) (c : Client)
    (s : Settings) : Go ptr :=
  λ w, let p := length (heap w) in
       Some (p, {| mgr := mgr w;
                   heap := heap w ++ [mkObserver clusterName c s false unknown];
                   events := events w ++ [Created p] |}).

Definition stop (o : Observer) : Observer :=
  mkObserver (cluster o) (esClient o) (obsSettings o) true (lastState o).

(** Modelled from the spec: [observer.Stop()] is idempotent and returns
    once the observer has ceased. *)
Definition Stop (p : ptr) : Go unit :=
  λ w, match heap w !! p with
       | Some o => Some (tt, {| mgr := mgr w;
                                heap := <[p := stop o]> (heap w);
                                events := events w ++ [Stopped p] |})
       | None => None
       end.

(** Modelled from the spec: [observer.LastState()] reads the cached
    state. *)
Definition LastState (p : ptr) : Go State :=
  λ w, match heap w !! p with
       | Some o => Some (lastState o, w)
       | None => None
       end.

(** [observer.esClient] *)
Definition getEsClient (p : ptr) : Go Client :=
  λ w, match heap w !! p with
       | Some o => Some (esClient o, w)
       | None => None
       end.

Definition cache (st : State) (o : Observer) : Observer :=
  mkObserver (cluster o) (esClient o) (obsSettings o) (stopped o) st.

(** Modelled from the spec: the background task of a running observer
    caches the state it has just polled.  It is not an operation of the
    manager; it is what makes cached states differ from the unknown one. *)
Definition observation (p : ptr) (st : State) : Go unit :=
  λ w, match heap w !! p with
       | Some o =>
           if stopped o then Some (tt, w)
           else Some (tt, {| mgr := mgr w;
                             heap := <[p := cache st o]> (heap w);
                             events := events w |})
       | None => Some (tt, w)
       end.

(** ** The manager's operations *)

(** [func (m *Manager) createObserver(clusterName, esClient) *Observer] *)
Definition createObserver (clusterName : NamespacedName) (c : Client)
  : Go ptr :=
  s ← getSettings;
  observer ← NewObserver clusterName c s;
  storeObserver clusterName observer;;
  mret observer.

(** [func (m *Manager) StopObserving(clusterName)] *)
Definition StopObserving (clusterName : NamespacedName) : Go unit :=
  r ← lookupObserver clusterName;
  match r with
  | None => mret tt
  | Some observer =>
      Stop observer;;
      deleteObserver clusterName
  end.

(** [func (m *Manager) Observe(clusterName, esClient) *Observer] *)
Definition Observe (clusterName : NamespacedName) (c : Client) : Go ptr :=
  r ← lookupObserver clusterName;
  match r with
  | None => createObserver clusterName c
  | Some observer =>
      bound ← getEsClient observer;
      if negb (Equal bound c) then
        StopObserving clusterName;;
        createObserver clusterName c
      else mret observer
  end.

(** [func (m *Manager) ObservedStateResolver(clusterName, esClient) State] *)
Definition ObservedStateResolver (clusterName : NamespacedName) (c : Client)
  : Go State :=
  observer ← Observe clusterName c;
  LastState observer.

(** [func (m *Manager) List() []types.NamespacedName]: the loop appends
    every key of the map to an initially empty slice.  Go leaves the
    iteration order open; the model iterates in the map's own order. *)
Definition List : Go (list NamespacedName) :=
  λ w, Some (foldl (λ list e, list ++ [e.1]) []
                   (map_to_list (observers (mgr w))), w).

(** ** The resolve operation as the specification words it

    Look up the watcher; if there is none, create one and return its state;
    if there is one whose client is not equal to the supplied one, stop it,
    remove it, create a new one and return its state; otherwise return the
    cached state of the existing one. *)
Definition Resolve_spec (identity : NamespacedName) (clientConfig : Client)
  : Go State :=
  r ← lookupObserver identity;
  match r with
  | None =>
      watcher ← createObserver identity clientConfig;
      LastState watcher
  | Some old =>
      bound ← getEsClient old;
      if Equal bound clientConfig then LastState old
      else
        Stop old;;
        deleteObserver identity;;
        watcher ← createObserver identity clientConfig;
        LastState watcher
  end.

(** ** Executions *)

(** The calls a client of the package can make on the manager, and the
    observations the background tasks make in between. *)
Inductive Op : Type :=
| OpObserve (clusterName : NamespacedName) (c : Client)
| OpResolve (clusterName : NamespacedName) (c : Client)
| OpCreate (clusterName : NamespacedName) (c : Client)
| OpStopObserving (clusterName : NamespacedName)
| OpList
| OpObservation (p : ptr) (st : State).

Definition exec (o : Op) : Go unit :=
  match o with
  | OpObserve clusterName c => Observe clusterName c;; mret tt
  | OpResolve clusterName c => ObservedStateResolver clusterName c;; mret tt
  | OpCreate clusterName c => createObserver clusterName c;; mret tt
  | OpStopObserving clusterName => StopObserving clusterName
  | OpList => List;; mret tt
  | OpObservation p st => observation p st
  end.

Fixpoint run (ops : list Op) : Go unit :=
  match ops with
  | [] => mret tt
  | o :: ops' => exec o;; run ops'
  end.

(** The worlds a manager built by [NewManager s] can be in. *)
Definition reachable (s : Settings) (w : World) : Prop :=
  ∃ ops, run ops (initWorld s) = Some (tt, w).

(** A sequence of [Observe] calls on one cluster. *)
Fixpoint ObserveAll (clusterName : NamespacedName) (cs : list Client)
  : Go (list ptr) :=
  match cs with
  | [] => mret []
  | c :: cs' =>
      p ← Observe clusterName c;
      ps ← ObserveAll clusterName cs';
      mret (p :: ps)
  end.

(** The supplied configuration does not change along [cs]: every client is
    [Equal] to every client supplied after it. *)
Fixpoint unchanged (cs : list Client) : bool :=
  match cs with
  | [] => true
  | c :: cs' => forallb (Equal c) cs' && unchanged cs'
  end.

(** ** Invariant and measures *)

(** The observer at [p] is bound to [clusterName] and running. *)
Definition live_for (h : list Observer) (clusterName : NamespacedName)
    (p : ptr) : Prop :=
  match h !! p with
  | Some o => cluster o = clusterName ∧ stopped o = false
  | None => False
  end.

(** Every entry of the map refers to an allocated, running observer of the
    cluster it is registered under. *)
Definition registry_inv (w : World) : Prop :=
  map_Forall (live_for (heap w)) (observers (mgr w)).

#[global] Instance live_for_dec h clusterName p :
  Decision (live_for h clusterName p).
Proof. unfold live_for. destruct (h !! p); apply _. Defined.

#[global] Instance registry_inv_dec w : Decision (registry_inv w).
Proof. unfold registry_inv. apply _. Defined.

(** The entries the map holds for one cluster. *)
Definition entries_for (clusterName : NamespacedName) (w : World)
  : list (NamespacedName * ptr) :=
  filter (λ e, e.1 = clusterName) (map_to_list (observers (mgr w))).

Definition is_created (e : Event) : bool :=
  match e with Created _ => true | Stopped _ => false end.

(** How many observers a log records as created. *)
Definition creations (l : list Event) : nat :=
  length (filter (λ e, is_created e = true) l).

(** How many times a log records [p] as stopped. *)
Definition stops_of (p : ptr) (l : list Event) : nat :=
  length (filter (λ e, e = Stopped p) l).

(** What the heap and the log of a manager built with settings [s] record:
    the manager still holds [s], every observer was created with [s], the
    log has one creation per allocated observer, and an observer is marked
    stopped exactly when the log has a stop of it. *)
Definition history_inv (s : Settings) (w : World) : Prop :=
  settings (mgr w) = s ∧
  Forall (λ o, obsSettings o = s) (heap w) ∧
  creations (events w) = length (heap w) ∧
  ∀ p, Stopped p ∈ events w ↔ ∃ o, heap w !! p = Some o ∧ stopped o = true.

(** An action keeps a property of worlds whenever it returns. *)
Definition preserves {A : Type} (P : World → Prop) (m : Go A) : Prop :=
  ∀ w a w', P w → m w = Some (a, w') → P w'.

(** ** Exported operations, leaks and frames *)

(** [createObserver] is the one operation the package does not export. *)
Definition exported (o : Op) : bool :=
  match o with
  | OpCreate _ _ => false
  | _ => true
  end.

(** The worlds a manager built by [NewManager s] can be in when only the
    exported operations are called on it. *)
Definition reachable_exported (s : Settings) (w : World) : Prop :=
  ∃ ops, forallb exported ops = true ∧ run ops (initWorld s) = Some (tt, w).

(** How many observers of a heap are running. *)
Definition running_count (h : list Observer) : nat :=
  length (filter (λ o, stopped o = false) h).

(** No entry of the map refers to [p]. *)
Definition unregistered (p : ptr) (w : World) : Prop :=
  ∀ clusterName, observers (mgr w) !! clusterName ≠ Some p.

(** Every running observer is the one registered for its cluster. *)
Definition no_leak (w : World) : Prop :=
  ∀ p o, heap w !! p = Some o → stopped o = false →
         observers (mgr w) !! cluster o = Some p.

(** The world [createObserver clusterName c] leaves. *)
Definition created (clusterName : NamespacedName) (c : Client) (w : World)
  : World :=
  {| mgr := {| observers := <[clusterName := length (heap w)]> (observers (mgr w));
               settings := settings (mgr w) |};
     heap := heap w ++ [mkObserver clusterName c (settings (mgr w)) false unknown];
     events := events w ++ [Created (length (heap w))] |}.

(** The world [StopObserving clusterName] leaves when the entry of
    [clusterName] refers to the observer [o] at [p]. *)
Definition unobserved (clusterName : NamespacedName) (p : ptr) (o : Observer)
    (w : World) : World :=
  {| mgr := {| observers := delete clusterName (observers (mgr w));
               settings := settings (mgr w) |};
     heap := <[p := stop o]> (heap w);
     events := events w ++ [Stopped p] |}.

(** [w'] has the settings of [w] and every observer of [w], at the same
    address, bound as in [w] and stopped if it was in [w]. *)
Definition extends (w w' : World) : Prop :=
  settings (mgr w') = settings (mgr w) ∧
  ∀ p o, heap w !! p = Some o →
         ∃ o', heap w' !! p = Some o' ∧
               cluster o' = cluster o ∧
               esClient o' = esClient o ∧
               obsSettings o' = obsSettings o ∧
               (stopped o = true → stopped o' = true).

(** The observer at [p] is allocated and not registered; the log has [n]
    stops of it and its stop mark is [b]. *)
Definition idle (p : ptr) (n : nat) (b : bool) (w : World) : Prop :=
  p < length (heap w) ∧
  unregistered p w ∧
  stops_of p (events w) = n ∧
  stopped <$> heap w !! p = Some b.

(** An action only ever leads to worlds that extend the one it started
    in. *)
Definition steady {A : Type} (m : Go A) : Prop :=
  ∀ w a w', m w = Some (a, w') → extends w w'.

End Manager.

(** ** A concrete instance

    Clients identified by their endpoint, settings by a polling interval in
    seconds, states by an optional health string. *)
Module Demo.

Definition Client : Type := string.
Definition Settings : Type := nat.
Definition State : Type := option string.
Definition Equal : Client → Client → bool := String.eqb.
Definition unknown : State := None.

Definition es1 : NamespacedName := mkNamespacedName "default" "es1".
Definition es2 : NamespacedName := mkNamespacedName "default" "es2".

Definition clientA : Client := "https://a:9200".
Definition clientB : Client := "https://b:9200".
Definition clientC : Client := "https://c:9200".
Definition green : State := Some "green".
Definition interval : Settings := 10.

(** One observer for [es1], which has observed a green cluster, and one for
    [es2]. *)
Definition ops2 : list (@Op Client State) :=
  [OpObserve es1 clientA; OpObservation 0 green;
   OpResolve es2 clientB].

Definition world2 : @World Client Settings State :=
  {| mgr := {| observers := <[es2 := 1]> (<[es1 := 0]> ∅); settings := interval |};
     heap := [mkObserver es1 clientA interval false green;
              mkObserver es2 clientB interval false unknown];
     events := [Created 0; Created 1] |}.

(** The exported calls that lead to [world3]. *)
Definition ops3 : list (@Op Client State) :=
  ops2 ++ [OpStopObserving es1].

(** [world2] after [StopObserving es1]. *)
Definition world3 : @World Client Settings State :=
  {| mgr := {| observers := <[es2 := 1]> ∅; settings := interval |};
     heap := [mkObserver es1 clientA interval true green;
              mkObserver es2 clientB interval false unknown];
     events := [Created 0; Created 1; Stopped 0] |}.

End Demo.

(** * Properties *)

Section Properties.

Context {Client Settings State : Type}.
Context (Equal : Client → Client → bool).
Context (unknown : State).

Implicit Types (w : @World Client Settings State).
Implicit Types (o : @Observer Client Settings State).
Implicit Types (c : Client) (clusterName : NamespacedName) (p : ptr).
Implicit Types (s : Settings).

Ltac go_unfold :=
  unfold ObservedStateResolver, Observe, Resolve_spec, StopObserving,
    createObserver, List, lookupObserver, storeObserver, deleteObserver,
    getSettings, NewObserver, Stop, LastState, getEsClient, observation,
    mbind, mret, Go_bind, Go_ret in *.

(** ** The heap *)

Lemma live_for_spec (h : list (@Observer Client Settings State)) clusterName p :
  live_for h clusterName p ↔
  ∃ o, h !! p = Some o ∧ cluster o = clusterName ∧ stopped o = false.
Proof.
  unfold live_for. destruct (h !! p) as [o|]; split.
  - intros [? ?]. eauto.
  - intros (o' & [= <-] & ? & ?). done.
  - done.
  - intros (? & ? & _). done.
Qed.

Lemma live_for_alloc (h : list (@Observer Client Settings State)) clusterName p o :
  live_for h clusterName p → live_for (h ++ [o]) clusterName p.
Proof.
  rewrite !live_for_spec. intros (o' & Hp & ? & ?). exists o'.
  split; [|done]. rewrite lookup_app_l; [done|]. by eapply lookup_lt_Some.
Qed.

Lemma live_for_update (h : list (@Observer Client Settings State))
    clusterName p q o :
  p ≠ q → live_for h clusterName p → live_for (<[q := o]> h) clusterName p.
Proof.
  intros Hne. rewrite !live_for_spec. intros (o' & Hp & ? & ?). exists o'.
  split; [|done]. by rewrite list_lookup_insert_ne.
Qed.

Lemma live_for_inj (h : list (@Observer Client Settings State)) n1 n2 p :
  live_for h n1 p → live_for h n2 p → n1 = n2.
Proof.
  rewrite !live_for_spec. intros (o1 & H1 & <- & _) (o2 & H2 & <- & _).
  congruence.
Qed.

Lemma registry_inv_lookup w clusterName p :
  registry_inv w → observers (mgr w) !! clusterName = Some p →
  ∃ o, heap w !! p = Some o ∧ cluster o = clusterName ∧ stopped o = false.
Proof. intros Hinv Hp. apply live_for_spec. by apply (Hinv clusterName p). Qed.

(** ** What each operation computes *)

Lemma createObserver_eq clusterName c w :
  createObserver unknown clusterName c w =
  Some (length (heap w),
        {| mgr := {| observers := <[clusterName := length (heap w)]> (observers (mgr w));
                     settings := settings (mgr w) |};
           heap := heap w ++ [mkObserver clusterName c (settings (mgr w)) false unknown];
           events := events w ++ [Created (length (heap w))] |}).
Proof. reflexivity. Qed.

Lemma StopObserving_absent clusterName w :
  observers (mgr w) !! clusterName = None →
  StopObserving clusterName w = Some (tt, w).
Proof. intros H. go_unfold. by rewrite H. Qed.

Lemma StopObserving_present clusterName w p o :
  observers (mgr w) !! clusterName = Some p → heap w !! p = Some o →
  StopObserving clusterName w =
  Some (tt, {| mgr := {| observers := delete clusterName (observers (mgr w));
                         settings := settings (mgr w) |};
               heap := <[p := stop o]> (heap w);
               events := events w ++ [Stopped p] |}).
Proof. intros H Ho. go_unfold. by rewrite H, Ho. Qed.

Lemma Observe_miss_eq clusterName c w :
  observers (mgr w) !! clusterName = None →
  Observe Equal unknown clusterName c w = createObserver unknown clusterName c w.
Proof. intros H. unfold Observe, lookupObserver, mbind, Go_bind. by rewrite H. Qed.

Lemma Observe_hit_eq clusterName c w p o :
  observers (mgr w) !! clusterName = Some p → heap w !! p = Some o →
  Equal (esClient o) c = true →
  Observe Equal unknown clusterName c w = Some (p, w).
Proof. intros H Ho He. go_unfold. by rewrite H, Ho, He. Qed.

Lemma Observe_swap_eq clusterName c w p o :
  observers (mgr w) !! clusterName = Some p → heap w !! p = Some o →
  Equal (esClient o) c = false →
  Observe Equal unknown clusterName c w =
  Some (length (heap w),
        {| mgr := {| observers := <[clusterName := length (heap w)]> (observers (mgr w));
                     settings := settings (mgr w) |};
           heap := <[p := stop o]> (heap w)
                   ++ [mkObserver clusterName c (settings (mgr w)) false unknown];
           events := events w ++ [Stopped p; Created (length (heap w))] |}).
Proof.
  intros H Ho He. go_unfold. rewrite H, Ho, He. simpl. rewrite H, Ho. simpl.
  rewrite length_insert, insert_delete_eq, <- app_assoc. reflexivity.
Qed.

(** ** Actions that keep a property *)

Lemma preserves_ret {A} (P : @World Client Settings State → Prop) (a : A) :
  @preserves Client Settings State A P (mret a).
Proof. intros w a' w' HP [= _ <-]. done. Qed.

Lemma preserves_bind {A B} (P : @World Client Settings State → Prop)
    (m : Go A) (f : A → Go B) :
  preserves P m → (∀ a, preserves P (f a)) → preserves P (m ≫= f).
Proof.
  intros Hm Hf w b w' HP. unfold mbind, Go_bind.
  destruct (m w) as [[a w1]|] eqn:E; [|done].
  intros Hfa. eapply Hf; [|exact Hfa]. by eapply Hm.
Qed.

Lemma history_inv_init (s : Settings) :
  history_inv s (initWorld (Client:=Client) (State:=State) s).
Proof.
  repeat split; simpl; try done.
  - by intros ?%elem_of_nil.
  - by intros (? & ? & _).
Qed.

Lemma lookupObserver_history s clusterName :
  preserves (history_inv s) (lookupObserver (Client:=Client) (State:=State) clusterName).
Proof. intros w a w' HP [= _ <-]. done. Qed.

Lemma getSettings_history s :
  preserves (history_inv s) (getSettings (Client:=Client) (State:=State)).
Proof. intros w a w' HP [= _ <-]. done. Qed.

Lemma storeObserver_history s clusterName p :
  preserves (history_inv s) (storeObserver (Client:=Client) (State:=State) clusterName p).
Proof. intros w a w' HP [= _ <-]. exact HP. Qed.

Lemma deleteObserver_history s clusterName :
  preserves (history_inv s) (deleteObserver (Client:=Client) (State:=State) clusterName).
Proof. intros w a w' HP [= _ <-]. exact HP. Qed.

Lemma getEsClient_history s p :
  preserves (A:=Client) (history_inv s)
    (getEsClient (Settings:=Settings) (State:=State) p).
Proof.
  intros w a w' HP. unfold getEsClient. destruct (heap w !! p); [|done].
  by intros [= _ <-].
Qed.

Lemma LastState_history s p :
  preserves (A:=State) (history_inv s)
    (LastState (Client:=Client) (Settings:=Settings) p).
Proof.
  intros w a w' HP. unfold LastState. destruct (heap w !! p); [|done].
  by intros [= _ <-].
Qed.

Lemma List_history s :
  preserves (history_inv s) (List (Client:=Client) (State:=State)).
Proof. intros w a w' HP [= _ <-]. done. Qed.

Lemma NewObserver_history s clusterName c :
  preserves (history_inv s) (NewObserver unknown clusterName c s).
Proof.
  intros w a w' (Hs & Hall & Hn & Hlog) [= _ <-]. repeat split; simpl.
  - done.
  - apply Forall_app. split; [done|]. by apply Forall_singleton.
  - unfold creations in *. rewrite filter_app, !length_app, Hn. done.
  - intros [Hin|Hin%list_elem_of_singleton]%elem_of_app; [|done].
    apply Hlog in Hin as (o & Ho & Hst). exists o. split; [|done].
    rewrite lookup_app_l; [done|]. by eapply lookup_lt_Some.
  - intros (o & Ho & Hst). apply elem_of_app. left. apply Hlog.
    apply lookup_app_Some in Ho as [Ho|[_ Ho]]; [by exists o|].
    destruct (p - length (heap w)); simpl in Ho; [|done].
    by simplify_eq.
Qed.

Lemma Stop_history s p :
  preserves (history_inv s) (Stop (Client:=Client) (Settings:=Settings) (State:=State) p).
Proof.
  intros w a w' (Hs & Hall & Hn & Hlog). unfold Stop.
  destruct (heap w !! p) as [o|] eqn:Ho; [|done]. intros [= _ <-].
  assert (p < length (heap w)) as Hlt by (by eapply lookup_lt_Some).
  repeat split; simpl.
  - done.
  - apply Forall_insert; [done|]. simpl. by eapply (Forall_lookup_1 _ _ _ _ Hall).
  - unfold creations in *. rewrite filter_app, length_app, length_insert, Hn.
    simpl. lia.
  - intros Hin. destruct (decide (p0 = p)) as [->|Hne].
    + exists (stop o). by rewrite list_lookup_insert_eq.
    + apply elem_of_app in Hin as [Hin|Hin%list_elem_of_singleton]; [|by simplify_eq].
      apply Hlog in Hin as (o' & Ho' & Hst). exists o'.
      by rewrite list_lookup_insert_ne.
  - intros (o' & Ho' & Hst). apply elem_of_app.
    destruct (decide (p0 = p)) as [->|Hne].
    + right. by apply list_elem_of_singleton.
    + left. apply Hlog. exists o'. by rewrite list_lookup_insert_ne in Ho'.
Qed.

Lemma observation_history s p (st : State) :
  preserves (history_inv s) (observation (Client:=Client) (Settings:=Settings) p st).
Proof.
  intros w a w' (Hs & Hall & Hn & Hlog). unfold observation.
  destruct (heap w !! p) as [o|] eqn:Ho; [|by intros [= _ <-]].
  destruct (stopped o) eqn:Hst; [by intros [= _ <-]|]. intros [= _ <-].
  assert (p < length (heap w)) as Hlt by (by eapply lookup_lt_Some).
  repeat split; simpl.
  - done.
  - apply Forall_insert; [done|]. simpl. by eapply (Forall_lookup_1 _ _ _ _ Hall).
  - by rewrite length_insert.
  - intros Hin. apply Hlog in Hin as (o' & Ho' & Hst').
    destruct (decide (p0 = p)) as [->|Hne]; [congruence|].
    exists o'. by rewrite list_lookup_insert_ne.
  - intros (o' & Ho' & Hst'). apply Hlog.
    destruct (decide (p0 = p)) as [->|Hne].
    + rewrite list_lookup_insert_eq in Ho' by done.
      injection Ho' as <-. simpl in Hst'. congruence.
    + exists o'. by rewrite list_lookup_insert_ne in Ho'.
Qed.

(** ** The invariant is kept by every operation *)

Lemma registry_inv_init (s : Settings) :
  registry_inv (initWorld (Client:=Client) (State:=State) s).
Proof. unfold registry_inv. simpl. apply map_Forall_empty. Qed.

Lemma createObserver_inv clusterName c w :
  registry_inv w →
  ∃ p w', createObserver unknown clusterName c w = Some (p, w') ∧
          registry_inv w' ∧ observers (mgr w') !! clusterName = Some p.
Proof.
  intros Hinv. rewrite createObserver_eq. eexists _, _. split; [reflexivity|].
  unfold registry_inv. simpl. split; [|by rewrite lookup_insert_eq].
  apply map_Forall_insert_2.
  - apply live_for_spec. eexists.
    split; [by rewrite lookup_app_r, Nat.sub_diag|done].
  - eapply map_Forall_impl; [exact Hinv|]. intros. by apply live_for_alloc.
Qed.

Lemma StopObserving_inv clusterName w :
  registry_inv w →
  ∃ w', StopObserving clusterName w = Some (tt, w') ∧ registry_inv w' ∧
        observers (mgr w') = delete clusterName (observers (mgr w)).
Proof.
  intros Hinv. destruct (observers (mgr w) !! clusterName) as [p|] eqn:Hp.
  - destruct (registry_inv_lookup _ _ _ Hinv Hp) as (o & Ho & Hc & Hs).
    rewrite (StopObserving_present _ _ _ _ Hp Ho). eexists. split; [done|].
    split; [|done]. unfold registry_inv. simpl.
    intros name' p' [Hne Hp']%lookup_delete_Some.
    apply live_for_update; [|by apply (Hinv name' p')].
    intros ->. apply Hne. eapply live_for_inj; [by apply (Hinv _ _ Hp)|].
    by apply (Hinv _ _ Hp').
  - rewrite (StopObserving_absent _ _ Hp). eexists. split; [done|].
    split; [done|]. by rewrite delete_id.
Qed.

Lemma Observe_inv clusterName c w :
  registry_inv w →
  ∃ p w', Observe Equal unknown clusterName c w = Some (p, w') ∧
          registry_inv w' ∧ observers (mgr w') !! clusterName = Some p.
Proof.
  intros Hinv. destruct (observers (mgr w) !! clusterName) as [p|] eqn:Hp.
  - destruct (registry_inv_lookup _ _ _ Hinv Hp) as (o & Ho & Hc & Hs).
    destruct (Equal (esClient o) c) eqn:He.
    + rewrite (Observe_hit_eq _ _ _ _ _ Hp Ho He). by eexists _, _.
    + destruct (StopObserving_inv clusterName w Hinv) as (w1 & Hstop & Hinv1 & _).
      destruct (createObserver_inv clusterName c w1 Hinv1) as (q & w2 & Hc2 & ? & ?).
      exists q, w2. split; [|done].
      unfold Observe, lookupObserver, getEsClient, mbind, Go_bind at 1 2.
      rewrite Hp, Ho, He. simpl. unfold mbind, Go_bind. by rewrite Hstop.
  - rewrite (Observe_miss_eq _ _ _ Hp). by apply createObserver_inv.
Qed.

Lemma ObservedStateResolver_inv clusterName c w :
  registry_inv w →
  ∃ st w', ObservedStateResolver Equal unknown clusterName c w = Some (st, w') ∧
           registry_inv w'.
Proof.
  intros Hinv. destruct (Observe_inv clusterName c w Hinv) as (p & w' & HO & Hinv' & Hp).
  destruct (registry_inv_lookup _ _ _ Hinv' Hp) as (o & Ho & _).
  exists (lastState o), w'. split; [|done].
  unfold ObservedStateResolver, mbind, Go_bind. rewrite HO.
  unfold LastState. by rewrite Ho.
Qed.

Lemma observation_inv p (st : State) w :
  registry_inv w →
  ∃ w', observation p st w = Some (tt, w') ∧ registry_inv w'.
Proof.
  intros Hinv. unfold observation.
  destruct (heap w !! p) as [o|] eqn:Ho; [|by eexists].
  destruct (stopped o) eqn:Hs; [by eexists|].
  eexists. split; [done|]. unfold registry_inv. simpl.
  intros name' p' Hp'. apply live_for_spec.
  destruct (registry_inv_lookup _ _ _ Hinv Hp') as (o' & Ho' & Hc' & Hs').
  destruct (decide (p' = p)) as [->|Hne].
  - exists (cache st o). rewrite list_lookup_insert_eq by (by eapply lookup_lt_Some).
    simpl. by simplify_eq.
  - exists o'. by rewrite list_lookup_insert_ne.
Qed.

Lemma exec_inv (op : @Op Client State) w :
  registry_inv w →
  ∃ w', exec Equal unknown op w = Some (tt, w') ∧ registry_inv w'.
Proof.
  intros Hinv. destruct op as [n c|n c|n c|n| |p st]; simpl.
  - destruct (Observe_inv n c w Hinv) as (p & w' & HO & ? & _).
    exists w'. unfold mbind, Go_bind. by rewrite HO.
  - destruct (ObservedStateResolver_inv n c w Hinv) as (p & w' & HO & ?).
    exists w'. unfold mbind, Go_bind. by rewrite HO.
  - destruct (createObserver_inv n c w Hinv) as (p & w' & HO & ? & _).
    exists w'. unfold mbind, Go_bind. by rewrite HO.
  - destruct (StopObserving_inv n w Hinv) as (w' & ? & ? & _). by exists w'.
  - by exists w.
  - by apply observation_inv.
Qed.

Lemma run_inv (ops : list (@Op Client State)) w :
  registry_inv w →
  ∃ w', run Equal unknown ops w = Some (tt, w') ∧ registry_inv w'.
Proof.
  revert w. induction ops as [|op ops IH]; intros w Hinv; simpl.
  - by exists w.
  - destruct (exec_inv op w Hinv) as (w1 & Hop & Hinv1).
    destruct (IH w1 Hinv1) as (w2 & Hrun & Hinv2).
    exists w2. unfold mbind, Go_bind. by rewrite Hop.
Qed.

Lemma reachable_inv (s : Settings) w :
  reachable Equal unknown s w → registry_inv w.
Proof.
  intros [ops Hrun].
  destruct (run_inv ops _ (registry_inv_init s)) as (w' & Hrun' & Hinv).
  rewrite Hrun in Hrun'. by simplify_eq.
Qed.

(** ** The heap and the log agree in every reachable world *)

Lemma createObserver_history s clusterName c :
  preserves (history_inv s) (createObserver unknown clusterName c).
Proof.
  intros w a w' HP. rewrite createObserver_eq. intros [= _ <-].
  pose proof (NewObserver_history s clusterName c w _ _ HP eq_refl) as HN.
  destruct HP as [Hs _]. subst s. exact HN.
Qed.

Lemma StopObserving_history s clusterName :
  preserves (history_inv s)
    (StopObserving (Client:=Client) (Settings:=Settings) (State:=State) clusterName).
Proof.
  apply preserves_bind; [apply lookupObserver_history|].
  intros [p|]; [|apply preserves_ret].
  apply preserves_bind; [apply Stop_history|].
  intros _. apply deleteObserver_history.
Qed.

Lemma Observe_history s clusterName c :
  preserves (history_inv s) (Observe Equal unknown clusterName c).
Proof.
  apply preserves_bind; [apply lookupObserver_history|].
  intros [p|]; [|apply createObserver_history].
  apply preserves_bind; [apply getEsClient_history|].
  intros bound. destruct (negb (Equal bound c)); [|apply preserves_ret].
  apply preserves_bind; [apply StopObserving_history|].
  intros _. apply createObserver_history.
Qed.

Lemma exec_history s (op : @Op Client State) :
  preserves (history_inv s) (exec Equal unknown op).
Proof.
  destruct op as [n c|n c|n c|n| |p st]; simpl.
  - apply preserves_bind; [apply Observe_history|]. intros _. apply preserves_ret.
  - apply preserves_bind; [|intros _; apply preserves_ret].
    apply preserves_bind; [apply Observe_history|]. intros p. apply LastState_history.
  - apply preserves_bind; [apply createObserver_history|]. intros _. apply preserves_ret.
  - apply StopObserving_history.
  - apply preserves_bind; [apply List_history|]. intros _. apply preserves_ret.
  - apply observation_history.
Qed.

Lemma run_history s (ops : list (@Op Client State)) :
  preserves (history_inv s) (run Equal unknown ops).
Proof.
  induction ops as [|op ops IH]; simpl; [apply preserves_ret|].
  apply preserves_bind; [apply exec_history|]. intros _. apply IH.
Qed.

Lemma reachable_history s w :
  reachable Equal unknown s w → history_inv s w.
Proof.
  intros [ops Hrun]. eapply run_history; [apply history_inv_init|exact Hrun].
Qed.

Lemma run_app (ops1 ops2 : list (@Op Client State)) w :
  run Equal unknown (ops1 ++ ops2) w =
  (run Equal unknown ops1 ≫= λ _, run Equal unknown ops2) w.
Proof.
  revert w. induction ops1 as [|op ops1 IH]; intros w; simpl.
  - reflexivity.
  - unfold mbind, Go_bind. destruct (exec Equal unknown op w) as [[[] w1]|]; [|done].
    apply IH.
Qed.

Lemma reachable_step s w (op : @Op Client State) w' :
  reachable Equal unknown s w → exec Equal unknown op w = Some (tt, w') →
  reachable Equal unknown s w'.
Proof.
  intros [ops Hrun] Hop. exists (ops ++ [op]). rewrite run_app.
  unfold mbind, Go_bind. rewrite Hrun. simpl. unfold mbind, Go_bind.
  by rewrite Hop.
Qed.

(** ** Lists of map entries *)

Lemma foldl_append_keys (l : list (NamespacedName * ptr)) (acc : list NamespacedName) :
  foldl (λ list e, list ++ [e.1]) acc l = acc ++ l.*1.
Proof.
  revert acc. induction l as [|e l IH]; intros acc; simpl.
  - by rewrite app_nil_r.
  - rewrite IH, <- app_assoc. done.
Qed.

Lemma List_eq w : List w = Some ((map_to_list (observers (mgr w))).*1, w).
Proof. unfold List. by rewrite foldl_append_keys. Qed.

Lemma filter_key_NoDup (l : list (NamespacedName * ptr)) clusterName :
  NoDup l.*1 → length (filter (λ e, e.1 = clusterName) l) ≤ 1.
Proof.
  induction l as [|[k p] l IH]; simpl; [lia|].
  intros [Hk Hnd]%NoDup_cons. destruct (decide (k = clusterName)) as [->|Hne].
  - rewrite filter_cons_True by done. simpl.
    destruct (filter (λ e : NamespacedName * ptr, e.1 = clusterName) l)
      as [|[k' p'] rest] eqn:Hf; [simpl; lia|].
    assert ((k', p') ∈ filter (λ e : NamespacedName * ptr, e.1 = clusterName) l)
      as [Heq Hin]%list_elem_of_filter by (rewrite Hf; left).
    simpl in Heq. subst k'. exfalso. apply Hk.
    apply list_elem_of_fmap. by exists (clusterName, p').
  - rewrite filter_cons_False by done. by apply IH.
Qed.

Lemma elem_of_keys (m : gmap NamespacedName ptr) clusterName :
  clusterName ∈ (map_to_list m).*1 ↔ is_Some (m !! clusterName).
Proof.
  rewrite list_elem_of_fmap. split.
  - intros ([k p] & -> & Hin%elem_of_map_to_list). by exists p.
  - intros [p Hp]. exists (clusterName, p). split; [done|].
    by apply elem_of_map_to_list.
Qed.

Lemma reachable_not_stopped s w clusterName p :
  reachable Equal unknown s w →
  observers (mgr w) !! clusterName = Some p →
  Stopped p ∉ events w.
Proof.
  intros Hr Hp.
  pose proof (reachable_history s w Hr) as (_ & _ & _ & Hlog).
  destruct (registry_inv_lookup _ _ _ (reachable_inv s w Hr) Hp)
    as (o & Ho & _ & Hs).
  intros Hin. apply Hlog in Hin as (o' & Ho' & Hs'). congruence.
Qed.

Lemma entries_for_at_most_one clusterName w :
  length (entries_for clusterName w) ≤ 1.
Proof. apply filter_key_NoDup, NoDup_fst_map_to_list. Qed.

Lemma stops_of_snoc p q (l : list Event) :
  stops_of p (l ++ [Stopped q]) = stops_of p l + (if decide (q = p) then 1 else 0).
Proof.
  unfold stops_of. rewrite filter_app, length_app. f_equal.
  destruct (decide (q = p)) as [->|Hne].
  - by rewrite filter_cons_True.
  - rewrite filter_cons_False; [done|]. by intros [= ->].
Qed.

Lemma stops_of_created p q (l : list Event) :
  stops_of p (l ++ [Created q]) = stops_of p l.
Proof.
  unfold stops_of. rewrite filter_app, length_app.
  rewrite filter_cons_False by done. simpl. lia.
Qed.

Lemma stops_of_absent p (l : list Event) :
  Stopped p ∉ l → stops_of p l = 0.
Proof.
  intros Hnin. unfold stops_of.
  destruct (filter (λ e, e = Stopped p) l) as [|e rest] eqn:Hf; [done|].
  assert (e ∈ filter (λ e, e = Stopped p) l) as [-> Hin]%list_elem_of_filter
    by (rewrite Hf; left).
  done.
Qed.

Lemma creations_snoc_created q (l : list Event) :
  creations (l ++ [Created q]) = S (creations l).
Proof. unfold creations. rewrite filter_app, length_app. simpl. lia. Qed.

(** ** Sequences of calls on one cluster *)

Lemma Observe_step clusterName c w :
  registry_inv w →
  ∃ p w', Observe Equal unknown clusterName c w = Some (p, w') ∧
          registry_inv w' ∧
          observers (mgr w') !! clusterName = Some p ∧
          ((w' = w ∧ ∃ o, heap w !! p = Some o ∧ Equal (esClient o) c = true) ∨
           (creations (events w') = S (creations (events w)) ∧
            length (heap w') = S (length (heap w)) ∧
            heap w' !! p =
              Some (mkObserver clusterName c (settings (mgr w)) false unknown))).
Proof.
  intros Hinv.
  destruct (Observe_inv clusterName c w Hinv) as (p & w' & HO & Hinv' & Hp').
  exists p, w'. split_and!; try done.
  destruct (observers (mgr w) !! clusterName) as [old|] eqn:Hp.
  - destruct (registry_inv_lookup _ _ _ Hinv Hp) as (o & Ho & _).
    destruct (Equal (esClient o) c) eqn:He.
    + left. rewrite (Observe_hit_eq _ _ _ _ _ Hp Ho He) in HO.
      injection HO as <- <-. split; [done|]. by exists o.
    + right. rewrite (Observe_swap_eq _ _ _ _ _ Hp Ho He) in HO.
      injection HO as <- <-. simpl. split_and!.
      * unfold creations. rewrite filter_app, length_app. simpl. lia.
      * rewrite length_app, length_insert. simpl. lia.
      * by rewrite lookup_app_r, length_insert, Nat.sub_diag
          by (by rewrite length_insert).
  - right. rewrite (Observe_miss_eq _ _ _ Hp), createObserver_eq in HO.
    injection HO as <- <-. simpl. split_and!.
    + apply creations_snoc_created.
    + rewrite length_app. simpl. lia.
    + by rewrite lookup_app_r, Nat.sub_diag.
Qed.

Lemma ObserveAll_hot clusterName (cs : list Client) w p o :
  observers (mgr w) !! clusterName = Some p →
  heap w !! p = Some o →
  forallb (Equal (esClient o)) cs = true →
  ObserveAll Equal unknown clusterName cs w = Some (replicate (length cs) p, w).
Proof.
  intros Hp Ho. induction cs as [|c cs IH]; simpl; [done|].
  intros [He Hall]%andb_prop. unfold mbind, Go_bind.
  rewrite (Observe_hit_eq _ _ _ _ _ Hp Ho He), (IH Hall). done.
Qed.

Lemma ObserveAll_at_most_one clusterName (cs : list Client) w :
  registry_inv w →
  unchanged Equal cs = true →
  ∃ ps w', ObserveAll Equal unknown clusterName cs w = Some (ps, w') ∧
           creations (events w') ≤ S (creations (events w)) ∧
           length (heap w') ≤ S (length (heap w)).
Proof.
  revert w. induction cs as [|c cs IH]; intros w Hinv Hun; simpl.
  - exists [], w. split; [done|]. lia.
  - simpl in Hun. apply andb_prop in Hun as [Hall Hun].
    destruct (Observe_step clusterName c w Hinv)
      as (p & w1 & HO & Hinv1 & Hp1 & [[-> _]|(Hc & Hl & Hh)]).
    + destruct (IH w Hinv Hun) as (ps & w' & Hrest & ? & ?).
      exists (p :: ps), w'. split; [|done].
      unfold mbind, Go_bind. by rewrite HO, Hrest.
    + exists (p :: replicate (length cs) p), w1. split; [|lia].
      unfold mbind, Go_bind. rewrite HO.
      by rewrite (ObserveAll_hot clusterName cs w1 p _ Hp1 Hh Hall).
Qed.

Lemma unchanged_replicate c n :
  Equal c c = true → unchanged Equal (replicate n c) = true.
Proof.
  intros Hrefl. induction n as [|n IH]; simpl; [done|].
  rewrite IH, andb_true_r. apply forallb_forall.
  intros c' Hin%list_elem_of_In%elem_of_replicate. destruct Hin as [-> _]. done.
Qed.

(** ** The claims *)

(** C1: in every world a manager can reach by completed operations
    ([Observe], [ObservedStateResolver], [createObserver], [StopObserving],
    [List], with observations of the background tasks in between), the map
    holds at most one entry per cluster (as it does in any world at all),
    and no entry refers to an observer that has been stopped: the observer
    is allocated, it is not marked stopped and the log has no stop of it.
    Every further operation completes and leads to such a world again. *)
Theorem registry_invariant s w :
  reachable Equal unknown s w →
  (∀ w0 : @World Client Settings State,
     ∀ clusterName, length (entries_for clusterName w0) ≤ 1) ∧
  (∀ clusterName p, observers (mgr w) !! clusterName = Some p →
     (Stopped p ∉ events w) ∧
     (∃ o, heap w !! p = Some o ∧ stopped o = false)) ∧
  (∀ op, ∃ w', exec Equal unknown op w = Some (tt, w') ∧
               reachable Equal unknown s w').
Proof.
  intros Hr. pose proof (reachable_inv s w Hr) as Hinv.
  split; [intros; apply entries_for_at_most_one|]. split.
  - intros clusterName p Hp.
    destruct (registry_inv_lookup _ _ _ Hinv Hp) as (o & Ho & _ & Hs).
    split; [by eapply reachable_not_stopped|by exists o].
  - intros op. destruct (exec_inv op w Hinv) as (w' & Hop & _).
    exists w'. split; [done|]. by eapply reachable_step.
Qed.

(** C7: [List] returns the clusters that are keys of the map, each of them
    once and no other, as a list value of its own, and leaves the world,
    the map included, as it was. *)
Theorem List_snapshot w :
  ∃ l, List w = Some (l, w) ∧
       NoDup l ∧
       length l = size (observers (mgr w)) ∧
       ∀ clusterName,
         clusterName ∈ l ↔ is_Some (observers (mgr w) !! clusterName).
Proof.
  exists ((map_to_list (observers (mgr w))).*1). split; [apply List_eq|].
  split; [apply NoDup_fst_map_to_list|].
  split; [by rewrite length_fmap, length_map_to_list|].
  intros clusterName. apply elem_of_keys.
Qed.

(** C8: in every world of a manager built by [NewManager s],
    [createObserver] allocates one new running observer bound to the given
    cluster and client and carrying [s], stores its address in the map
    under the cluster whatever was there before, stops no observer, changes
    no observer allocated before, and returns the address of the new
    observer; every observer ever created carries [s]. *)
Theorem createObserver_semantics s w clusterName c :
  reachable Equal unknown s w →
  ∃ w', createObserver unknown clusterName c w = Some (length (heap w), w') ∧
        heap w' = heap w ++ [mkObserver clusterName c s false unknown] ∧
        heap w' !! length (heap w) =
          Some (mkObserver clusterName c s false unknown) ∧
        observers (mgr w') =
          <[clusterName := length (heap w)]> (observers (mgr w)) ∧
        settings (mgr w') = s ∧
        events w' = events w ++ [Created (length (heap w))] ∧
        (∀ p, stops_of p (events w') = stops_of p (events w)) ∧
        (∀ p o, heap w !! p = Some o → heap w' !! p = Some o) ∧
        Forall (λ o, obsSettings o = s) (heap w').
Proof.
  intros Hr. pose proof (reachable_history s w Hr) as Hh.
  eexists. split; [apply createObserver_eq|].
  pose proof (createObserver_history s clusterName c w _ _ Hh
                (createObserver_eq clusterName c w)) as (_ & Hall & _).
  destruct Hh as (Hs & _). simpl in *. rewrite Hs in *.
  split_and!; try done.
  - by rewrite lookup_app_r, Nat.sub_diag.
  - intros p. unfold stops_of. rewrite filter_app, length_app. simpl. lia.
  - intros p o Ho. rewrite lookup_app_l; [done|]. by eapply lookup_lt_Some.
Qed.

(** C3: when the map has no entry for the cluster, [Observe] allocates
    exactly one observer, new, running and bound to the cluster and the
    supplied client, stores it in the map under the cluster and returns it;
    nothing is stopped; [ObservedStateResolver] returns the last state of
    that observer, which is the unknown one. *)
Theorem Observe_creates clusterName c w :
  observers (mgr w) !! clusterName = None →
  ∃ w', Observe Equal unknown clusterName c w = Some (length (heap w), w') ∧
        ObservedStateResolver Equal unknown clusterName c w = Some (unknown, w') ∧
        LastState (length (heap w)) w' = Some (unknown, w') ∧
        heap w' = heap w ++
          [mkObserver clusterName c (settings (mgr w)) false unknown] ∧
        observers (mgr w') =
          <[clusterName := length (heap w)]> (observers (mgr w)) ∧
        events w' = events w ++ [Created (length (heap w))] ∧
        creations (events w') = S (creations (events w)).
Proof.
  intros Hp.
  set (w' := {| mgr := {| observers := <[clusterName := length (heap w)]> (observers (mgr w));
                          settings := settings (mgr w) |};
                heap := heap w ++ [mkObserver clusterName c (settings (mgr w)) false unknown];
                events := events w ++ [Created (length (heap w))] |}).
  assert (LastState (length (heap w)) w' = Some (unknown, w')) as HL.
  { unfold LastState. simpl. by rewrite lookup_app_r, Nat.sub_diag. }
  exists w'.
  split; [by rewrite (Observe_miss_eq _ _ _ Hp), createObserver_eq|].
  split.
  { unfold ObservedStateResolver, mbind, Go_bind.
    rewrite (Observe_miss_eq _ _ _ Hp), createObserver_eq. exact HL. }
  split; [exact HL|]. simpl. split_and!; try done.
  unfold creations. rewrite filter_app, length_app. simpl. lia.
Qed.

(** C2: when the map holds an observer for the cluster whose client is not
    [Equal] to the supplied one, [Observe] first runs [StopObserving],
    which stops the old observer once and removes its entry, and then
    [createObserver], which allocates one new running observer bound to the
    supplied client and registers it; the log gains the stop followed by
    the creation and nothing else; the new observer is returned and
    [ObservedStateResolver] returns its state, the unknown one.  In a
    reachable world that stop is the only stop of the old observer ever. *)
Theorem Observe_replaces clusterName c w old o :
  observers (mgr w) !! clusterName = Some old →
  heap w !! old = Some o →
  Equal (esClient o) c = false →
  ∃ w1 w2,
    StopObserving clusterName w = Some (tt, w1) ∧
    observers (mgr w1) !! clusterName = None ∧
    heap w1 !! old = Some (stop o) ∧
    events w1 = events w ++ [Stopped old] ∧
    createObserver unknown clusterName c w1 = Some (length (heap w), w2) ∧
    Observe Equal unknown clusterName c w = Some (length (heap w), w2) ∧
    ObservedStateResolver Equal unknown clusterName c w = Some (unknown, w2) ∧
    LastState (length (heap w)) w2 = Some (unknown, w2) ∧
    old ≠ length (heap w) ∧
    observers (mgr w2) =
      <[clusterName := length (heap w)]> (observers (mgr w)) ∧
    heap w2 = <[old := stop o]> (heap w) ++
      [mkObserver clusterName c (settings (mgr w)) false unknown] ∧
    events w2 = events w ++ [Stopped old; Created (length (heap w))] ∧
    stops_of old (events w2) = S (stops_of old (events w)) ∧
    creations (events w2) = S (creations (events w)) ∧
    (∀ s, reachable Equal unknown s w → stops_of old (events w2) = 1).
Proof.
  intros Hp Ho He.
  assert (old < length (heap w)) as Hlt by (by eapply lookup_lt_Some).
  pose proof (Observe_swap_eq clusterName c w old o Hp Ho He) as HO.
  pose proof (StopObserving_present clusterName w old o Hp Ho) as HS.
  eexists _, _. split; [exact HS|]. simpl.
  assert (stops_of old (events w ++ [Stopped old; Created (length (heap w))])
          = S (stops_of old (events w))) as Hstops.
  { change [Stopped old; Created (length (heap w))]
      with ([Stopped old] ++ [Created (length (heap w))]).
    rewrite app_assoc, stops_of_created, stops_of_snoc.
    rewrite decide_True by done. lia. }
  split_and!.
  - apply lookup_delete_eq.
  - by apply list_lookup_insert_eq.
  - done.
  - rewrite createObserver_eq. simpl.
    rewrite length_insert, insert_delete_eq, <- app_assoc. reflexivity.
  - exact HO.
  - unfold ObservedStateResolver, mbind, Go_bind. rewrite HO.
    unfold LastState. simpl.
    by rewrite lookup_app_r, length_insert, Nat.sub_diag by (by rewrite length_insert).
  - unfold LastState. simpl.
    by rewrite lookup_app_r, length_insert, Nat.sub_diag by (by rewrite length_insert).
  - lia.
  - done.
  - done.
  - done.
  - exact Hstops.
  - simpl. unfold creations. rewrite filter_app, length_app. simpl. lia.
  - intros s Hr. simpl. rewrite Hstops. f_equal. apply stops_of_absent.
    by apply (reachable_not_stopped s w clusterName).
Qed.

(** C5: [StopObserving] on a cluster without entry returns at once and
    leaves the world as it was; in a world that satisfies the invariant it
    always returns (it does not panic), and a second call right after the
    first changes nothing. *)
Theorem StopObserving_idempotent clusterName w :
  (observers (mgr w) !! clusterName = None →
   StopObserving clusterName w = Some (tt, w)) ∧
  (registry_inv w →
   ∃ w1, StopObserving clusterName w = Some (tt, w1) ∧
         StopObserving clusterName w1 = Some (tt, w1)) ∧
  (∀ w1, StopObserving clusterName w = Some (tt, w1) →
         StopObserving clusterName w1 = Some (tt, w1)).
Proof.
  split; [apply StopObserving_absent|].
  assert (∀ w1, StopObserving clusterName w = Some (tt, w1) →
                StopObserving clusterName w1 = Some (tt, w1)) as Hsecond.
  { intros w1 HS. apply StopObserving_absent.
    destruct (observers (mgr w) !! clusterName) as [p|] eqn:Hp.
    - destruct (heap w !! p) as [o|] eqn:Ho.
      + rewrite (StopObserving_present _ _ _ _ Hp Ho) in HS.
        injection HS as <-. simpl. apply lookup_delete_eq.
      + go_unfold. by rewrite Hp, Ho in HS.
    - rewrite (StopObserving_absent _ _ Hp) in HS. by injection HS as <-. }
  split; [|exact Hsecond].
  intros Hinv. destruct (StopObserving_inv clusterName w Hinv) as (w1 & HS & _).
  exists w1. split; [exact HS|by apply Hsecond].
Qed.

(** C6: once [StopObserving] has returned, [List] does not contain the
    cluster, and the next [Observe] (or [ObservedStateResolver]) of the
    cluster allocates an observer at an address that held none before,
    running and bound to the supplied client, and registers it; the
    observer that was stopped keeps its address, stays stopped and is not
    the one returned. *)
Theorem StopObserving_then_fresh clusterName w w1 :
  StopObserving clusterName w = Some (tt, w1) →
  (∃ l, List w1 = Some (l, w1) ∧ clusterName ∉ l) ∧
  (∀ c, ∃ w2,
     Observe Equal unknown clusterName c w1 = Some (length (heap w1), w2) ∧
     ObservedStateResolver Equal unknown clusterName c w1 = Some (unknown, w2) ∧
     heap w1 !! length (heap w1) = None ∧
     heap w2 !! length (heap w1) =
       Some (mkObserver clusterName c (settings (mgr w1)) false unknown) ∧
     observers (mgr w2) !! clusterName = Some (length (heap w1)) ∧
     events w2 = events w1 ++ [Created (length (heap w1))] ∧
     (∀ p, observers (mgr w) !! clusterName = Some p →
           p ≠ length (heap w1) ∧
           ∃ o, heap w2 !! p = Some o ∧ stopped o = true)).
Proof.
  intros HS.
  assert (observers (mgr w1) !! clusterName = None ∧
          ∀ p, observers (mgr w) !! clusterName = Some p →
               ∃ o, heap w1 !! p = Some o ∧ stopped o = true) as [Hnone Hold].
  { destruct (observers (mgr w) !! clusterName) as [p|] eqn:Hp.
    - destruct (heap w !! p) as [o|] eqn:Ho.
      + rewrite (StopObserving_present _ _ _ _ Hp Ho) in HS.
        injection HS as <-. simpl. split; [apply lookup_delete_eq|].
        intros ? [= <-]. exists (stop o). split; [|done].
        apply list_lookup_insert_eq. by eapply lookup_lt_Some.
      + go_unfold. by rewrite Hp, Ho in HS.
    - rewrite (StopObserving_absent _ _ Hp) in HS. injection HS as <-.
      split; [done|]. by intros. }
  split.
  - eexists. split; [apply List_eq|].
    rewrite elem_of_keys, Hnone. by intros [? ?].
  - intros c. eexists. unfold ObservedStateResolver, mbind, Go_bind.
    rewrite (Observe_miss_eq _ _ _ Hnone), createObserver_eq.
    split; [reflexivity|]. simpl. split_and!.
    + unfold LastState. simpl. by rewrite lookup_app_r, Nat.sub_diag.
    + by apply lookup_ge_None.
    + by rewrite lookup_app_r, Nat.sub_diag.
    + apply lookup_insert_eq.
    + done.
    + intros p Hp. destruct (Hold p Hp) as (o & Ho & Hst).
      pose proof (lookup_lt_Some _ _ _ Ho). split; [lia|].
      exists o. by rewrite lookup_app_l.
Qed.

(** C4: when the map holds an observer for the cluster whose client is
    [Equal] to the supplied one, [Observe] returns that observer and
    [ObservedStateResolver] its cached state, and the world (the map, every
    observer, the log of creations and stops) is exactly as before; so is
    it after any sequence of such calls.  In a world that satisfies the
    invariant, a sequence of calls on one cluster along which the client
    does not change (each supplied client is [Equal] to those supplied
    after it; in particular one client, [Equal] to itself, supplied every
    time) creates at most one observer in total. *)
Theorem Observe_reuses clusterName w :
  (∀ c p o,
     observers (mgr w) !! clusterName = Some p →
     heap w !! p = Some o →
     Equal (esClient o) c = true →
     Observe Equal unknown clusterName c w = Some (p, w) ∧
     ObservedStateResolver Equal unknown clusterName c w =
       Some (lastState o, w)) ∧
  (∀ cs p o,
     observers (mgr w) !! clusterName = Some p →
     heap w !! p = Some o →
     forallb (Equal (esClient o)) cs = true →
     ObserveAll Equal unknown clusterName cs w =
       Some (replicate (length cs) p, w)) ∧
  (∀ cs,
     registry_inv w →
     unchanged Equal cs = true →
     ∃ ps w', ObserveAll Equal unknown clusterName cs w = Some (ps, w') ∧
              creations (events w') ≤ S (creations (events w)) ∧
              length (heap w') ≤ S (length (heap w))) ∧
  (∀ c n,
     registry_inv w →
     Equal c c = true →
     ∃ ps w', ObserveAll Equal unknown clusterName (replicate n c) w
                = Some (ps, w') ∧
              creations (events w') ≤ S (creations (events w)) ∧
              length (heap w') ≤ S (length (heap w))).
Proof.
  split_and!.
  - intros c p o Hp Ho He.
    pose proof (Observe_hit_eq clusterName c w p o Hp Ho He) as HO.
    split; [exact HO|].
    unfold ObservedStateResolver, mbind, Go_bind. rewrite HO.
    unfold LastState. by rewrite Ho.
  - intros cs p o. apply ObserveAll_hot.
  - intros cs. apply ObserveAll_at_most_one.
  - intros c n Hinv Hrefl. apply ObserveAll_at_most_one; [done|].
    by apply unchanged_replicate.
Qed.

(** C9: [ObservedStateResolver] is [Observe] followed by [LastState] on the
    observer it returned, in the world [Observe] left; it computes what the
    specification's resolve operation computes, result and final world; in
    a world that satisfies the invariant both return, with the same final
    world, and the state is the one cached by the returned observer. *)
Theorem ObservedStateResolver_refines clusterName c w :
  ObservedStateResolver Equal unknown clusterName c w =
    match Observe Equal unknown clusterName c w with
    | Some (observer, w') => LastState observer w'
    | None => None
    end ∧
  ObservedStateResolver Equal unknown clusterName c w =
    Resolve_spec Equal unknown clusterName c w ∧
  (registry_inv w →
   ∃ observer o w',
     Observe Equal unknown clusterName c w = Some (observer, w') ∧
     heap w' !! observer = Some o ∧
     ObservedStateResolver Equal unknown clusterName c w =
       Some (lastState o, w')).
Proof.
  split_and!.
  - reflexivity.
  - unfold ObservedStateResolver, Observe, Resolve_spec, lookupObserver,
      getEsClient, mbind, Go_bind.
    destruct (observers (mgr w) !! clusterName) as [p|] eqn:Hp; [|done].
    destruct (heap w !! p) as [o|] eqn:Ho; [|done].
    destruct (Equal (esClient o) c) eqn:He; simpl; [done|].
    unfold StopObserving, lookupObserver, Stop, mbind, Go_bind.
    by rewrite Hp, Ho.
  - intros Hinv.
    destruct (Observe_inv clusterName c w Hinv) as (p & w' & HO & Hinv' & Hp).
    destruct (registry_inv_lookup _ _ _ Hinv' Hp) as (o & Ho & _).
    exists p, o, w'. split_and!; try done.
    unfold ObservedStateResolver, mbind, Go_bind. rewrite HO.
    unfold LastState. by rewrite Ho.
Qed.

(** C10: in a world that satisfies the invariant, (i) [Observe] returns an
    observer that the map afterwards holds under the cluster, bound to the
    cluster and to a client that is the supplied one or [Equal] to it, hence
    [Equal] to it whenever the supplied client is [Equal] to itself; (ii) [Observe] and [StopObserving] leave
    the entry of every other cluster as it was, and the observer that entry
    refers to unchanged and with no further stop in the log. *)
Theorem Observe_registers_and_frames clusterName w :
  registry_inv w →
  (∀ c, ∃ p o w',
       Observe Equal unknown clusterName c w = Some (p, w') ∧
       observers (mgr w') !! clusterName = Some p ∧
       heap w' !! p = Some o ∧
       cluster o = clusterName ∧
       (esClient o = c ∨ Equal (esClient o) c = true) ∧
       (Equal c c = true → Equal (esClient o) c = true)) ∧
  (∀ other, other ≠ clusterName →
     (∀ c, ∃ p w',
        Observe Equal unknown clusterName c w = Some (p, w') ∧
        observers (mgr w') !! other = observers (mgr w) !! other ∧
        ∀ q, observers (mgr w) !! other = Some q →
             heap w' !! q = heap w !! q ∧
             stops_of q (events w') = stops_of q (events w)) ∧
     (∃ w',
        StopObserving clusterName w = Some (tt, w') ∧
        observers (mgr w') !! other = observers (mgr w) !! other ∧
        ∀ q, observers (mgr w) !! other = Some q →
             heap w' !! q = heap w !! q ∧
             stops_of q (events w') = stops_of q (events w))).
Proof.
  intros Hinv. split.
  - intros c.
    destruct (Observe_step clusterName c w Hinv)
      as (p & w' & HO & Hinv' & Hp' & Hcase).
    destruct (registry_inv_lookup _ _ _ Hinv' Hp') as (o & Ho & Hc & _).
    exists p, o, w'. split_and!; try done.
    + destruct Hcase as [[-> (o' & Ho' & He)]|(_ & _ & Hh)].
      * right. by simplify_eq.
      * left. rewrite Hh in Ho. by injection Ho as <-.
    + intros Hrefl. destruct Hcase as [[-> (o' & Ho' & He)]|(_ & _ & Hh)].
      * by simplify_eq.
      * rewrite Hh in Ho. by injection Ho as <-.
  - intros other Hne.
    assert (∀ old o q, observers (mgr w) !! clusterName = Some old →
                       heap w !! old = Some o →
                       observers (mgr w) !! other = Some q →
                       q ≠ old ∧ q < length (heap w)) as Hsep.
    { intros old o q Hp Ho Hq.
      destruct (registry_inv_lookup _ _ _ Hinv Hq) as (o' & Ho' & _).
      split; [|by eapply lookup_lt_Some].
      intros ->. apply Hne. eapply live_for_inj; by apply (Hinv _ _). }
    split.
    + intros c. destruct (observers (mgr w) !! clusterName) as [old|] eqn:Hp.
      * destruct (registry_inv_lookup _ _ _ Hinv Hp) as (o & Ho & _).
        destruct (Equal (esClient o) c) eqn:He.
        -- rewrite (Observe_hit_eq _ _ _ _ _ Hp Ho He). by eexists _, _.
        -- rewrite (Observe_swap_eq _ _ _ _ _ Hp Ho He). eexists _, _.
           split; [done|]. simpl. split; [by rewrite lookup_insert_ne|].
           intros q Hq. destruct (Hsep old o q eq_refl Ho Hq) as [Hqo Hlt].
           split.
           ++ rewrite lookup_app_l by (by rewrite length_insert).
              by rewrite list_lookup_insert_ne.
           ++ change [Stopped old; Created (length (heap w))]
                with ([Stopped old] ++ [Created (length (heap w))]).
              rewrite app_assoc, stops_of_created, stops_of_snoc.
              rewrite decide_False by done. lia.
      * rewrite (Observe_miss_eq _ _ _ Hp), createObserver_eq. eexists _, _.
        split; [done|]. simpl. split; [by rewrite lookup_insert_ne|].
        intros q Hq.
        destruct (registry_inv_lookup _ _ _ Hinv Hq) as (o' & Ho' & _).
        split; [|apply stops_of_created].
        rewrite lookup_app_l; [done|]. by eapply lookup_lt_Some.
    + destruct (observers (mgr w) !! clusterName) as [old|] eqn:Hp.
      * destruct (registry_inv_lookup _ _ _ Hinv Hp) as (o & Ho & _).
        rewrite (StopObserving_present _ _ _ _ Hp Ho). eexists.
        split; [done|]. simpl. split; [by rewrite lookup_delete_ne|].
        intros q Hq. destruct (Hsep old o q eq_refl Ho Hq) as [Hqo Hlt].
        split; [by rewrite list_lookup_insert_ne|].
        rewrite stops_of_snoc, decide_False by done. lia.
      * rewrite (StopObserving_absent _ _ Hp). by eexists.
Qed.

(** * Beyond the claims *)

(** ** The worlds the operations leave *)

Lemma createObserver_created clusterName c w :
  createObserver unknown clusterName c w =
  Some (length (heap w), created unknown clusterName c w).
Proof. reflexivity. Qed.

Lemma StopObserving_unobserved clusterName w p o :
  observers (mgr w) !! clusterName = Some p → heap w !! p = Some o →
  StopObserving clusterName w = Some (tt, unobserved clusterName p o w).
Proof. apply StopObserving_present. Qed.

Lemma Observe_swap_created clusterName c w p o :
  observers (mgr w) !! clusterName = Some p → heap w !! p = Some o →
  Equal (esClient o) c = false →
  Observe Equal unknown clusterName c w =
  Some (length (heap w),
        created unknown clusterName c (unobserved clusterName p o w)).
Proof.
  intros Hp Ho He. rewrite (Observe_swap_eq _ _ _ _ _ Hp Ho He).
  unfold created, unobserved. simpl.
  by rewrite length_insert, insert_delete_eq, <- app_assoc.
Qed.

Lemma Observe_inversion clusterName c w p w' :
  Observe Equal unknown clusterName c w = Some (p, w') →
  (observers (mgr w) !! clusterName = None ∧
   p = length (heap w) ∧ w' = created unknown clusterName c w) ∨
  (∃ old o,
     observers (mgr w) !! clusterName = Some old ∧ heap w !! old = Some o ∧
     ((Equal (esClient o) c = true ∧ p = old ∧ w' = w) ∨
      (Equal (esClient o) c = false ∧ p = length (heap w) ∧
       w' = created unknown clusterName c (unobserved clusterName old o w)))).
Proof.
  intros HO. destruct (observers (mgr w) !! clusterName) as [old|] eqn:Hp.
  - right. exists old. destruct (heap w !! old) as [o|] eqn:Ho.
    + exists o. split; [done|]. split; [done|].
      destruct (Equal (esClient o) c) eqn:He.
      * left. rewrite (Observe_hit_eq _ _ _ _ _ Hp Ho He) in HO. by simplify_eq.
      * right. rewrite (Observe_swap_created _ _ _ _ _ Hp Ho He) in HO.
        by simplify_eq.
    + go_unfold. by rewrite Hp, Ho in HO.
  - left. rewrite (Observe_miss_eq _ _ _ Hp), createObserver_created in HO.
    by simplify_eq.
Qed.

Lemma StopObserving_inversion clusterName w w' :
  StopObserving clusterName w = Some (tt, w') →
  (observers (mgr w) !! clusterName = None ∧ w' = w) ∨
  (∃ old o,
     observers (mgr w) !! clusterName = Some old ∧ heap w !! old = Some o ∧
     w' = unobserved clusterName old o w).
Proof.
  intros HS. destruct (observers (mgr w) !! clusterName) as [old|] eqn:Hp.
  - right. exists old. destruct (heap w !! old) as [o|] eqn:Ho.
    + exists o. rewrite (StopObserving_unobserved _ _ _ _ Hp Ho) in HS.
      by simplify_eq.
    + go_unfold. by rewrite Hp, Ho in HS.
  - left. rewrite (StopObserving_absent _ _ Hp) in HS. by simplify_eq.
Qed.

Lemma ObservedStateResolver_inversion clusterName c w st w' :
  ObservedStateResolver Equal unknown clusterName c w = Some (st, w') →
  ∃ p, Observe Equal unknown clusterName c w = Some (p, w').
Proof.
  unfold ObservedStateResolver, mbind, Go_bind.
  destruct (Observe Equal unknown clusterName c w) as [[p w1]|]; [|done].
  unfold LastState. destruct (heap w1 !! p); [|done].
  intros [= _ <-]. by exists p.
Qed.

(** What an exported operation does to the world is what [Observe],
    [StopObserving] or an observation does, or nothing. *)
Lemma exec_exported_inversion (op : @Op Client State) w w' :
  exported op = true → exec Equal unknown op w = Some (tt, w') →
  w' = w ∨
  (∃ clusterName c p, Observe Equal unknown clusterName c w = Some (p, w')) ∨
  (∃ clusterName, StopObserving clusterName w = Some (tt, w')) ∨
  (∃ p st, observation p st w = Some (tt, w')).
Proof.
  destruct op as [n c|n c|n c|n| |p st]; simpl; intros Hex Hop; try done.
  - right; left. exists n, c. unfold mbind, Go_bind, mret, Go_ret in Hop.
    destruct (Observe Equal unknown n c w) as [[p w1]|]; [|done].
    exists p. by simplify_eq.
  - right; left. exists n, c. unfold mbind, Go_bind, mret, Go_ret in Hop.
    destruct (ObservedStateResolver Equal unknown n c w) as [[st w1]|] eqn:HR;
      [|done].
    apply ObservedStateResolver_inversion in HR as [p HO].
    exists p. by simplify_eq.
  - right; right; left. by exists n.
  - left. unfold mbind, Go_bind, mret, Go_ret, List in Hop. by simplify_eq.
  - right; right; right. by exists p, st.
Qed.

(** ** No running observer is lost *)

Lemma no_leak_created clusterName c w :
  observers (mgr w) !! clusterName = None →
  no_leak w → no_leak (created unknown clusterName c w).
Proof.
  intros Hnone Hnl p o. unfold created. simpl.
  intros [Ho|[Hge Ho]]%lookup_app_Some Hrun.
  - rewrite lookup_insert_ne; [by apply Hnl|].
    intros Heq. specialize (Hnl p o Ho Hrun).
    unfold ptr in *. congruence.
  - destruct (p - length (heap w)) as [|k] eqn:Hk; simpl in Ho; [|done].
    injection Ho as <-. simpl. rewrite lookup_insert_eq. f_equal. lia.
Qed.

Lemma no_leak_unobserved clusterName old o0 w :
  observers (mgr w) !! clusterName = Some old → heap w !! old = Some o0 →
  no_leak w → no_leak (unobserved clusterName old o0 w).
Proof.
  intros Hp Ho0 Hnl p o. unfold unobserved. simpl. intros Ho Hrun.
  destruct (decide (p = old)) as [->|Hne].
  - rewrite list_lookup_insert_eq in Ho by (by eapply lookup_lt_Some).
    injection Ho as <-. done.
  - rewrite list_lookup_insert_ne in Ho by done.
    specialize (Hnl p o Ho Hrun). rewrite lookup_delete_ne; [done|].
    intros Heq. unfold ptr in *. congruence.
Qed.

Lemma no_leak_observation q (st : State) w w' :
  observation q st w = Some (tt, w') → no_leak w → no_leak w'.
Proof.
  unfold observation. destruct (heap w !! q) as [oq|] eqn:Hq;
    [|by intros [= <-]].
  destruct (stopped oq) eqn:Hs; [by intros [= <-]|]. intros [= <-] Hnl p o.
  simpl. intros Ho Hrun. destruct (decide (p = q)) as [->|Hne].
  - rewrite list_lookup_insert_eq in Ho by (by eapply lookup_lt_Some).
    injection Ho as <-. simpl. by apply Hnl.
  - rewrite list_lookup_insert_ne in Ho by done. by apply Hnl.
Qed.

Lemma observers_unobserved_absent clusterName old o0 w :
  observers (mgr (unobserved clusterName old o0 w)) !! clusterName = None.
Proof. unfold unobserved. simpl. apply lookup_delete_eq. Qed.

Lemma no_leak_exec (op : @Op Client State) w w' :
  exported op = true → exec Equal unknown op w = Some (tt, w') →
  no_leak w → no_leak w'.
Proof.
  intros Hex Hop Hnl.
  destruct (exec_exported_inversion op w w' Hex Hop)
    as [->|[(n & c & p & HO)|[(n & HS)|(p & st & Hobs)]]]; [done| | |].
  - apply Observe_inversion in HO
      as [(Hnone & _ & ->)|(old & o & Hp & Ho & [(_ & _ & ->)|(_ & _ & ->)])].
    + by apply no_leak_created.
    + done.
    + apply no_leak_created; [apply observers_unobserved_absent|].
      by apply no_leak_unobserved.
  - apply StopObserving_inversion in HS as [[_ ->]|(old & o & Hp & Ho & ->)];
      [done|]. by apply no_leak_unobserved.
  - by eapply no_leak_observation.
Qed.

Lemma no_leak_run (ops : list (@Op Client State)) w w' :
  forallb exported ops = true → run Equal unknown ops w = Some (tt, w') →
  no_leak w → no_leak w'.
Proof.
  revert w. induction ops as [|op ops IH]; intros w Hex Hrun Hnl; simpl in *.
  - unfold mret, Go_ret in Hrun. by simplify_eq.
  - apply andb_prop in Hex as [Hop Hex]. unfold mbind, Go_bind in Hrun.
    destruct (exec Equal unknown op w) as [[[] w1]|] eqn:E; [|done].
    eapply IH; [done|exact Hrun|]. by eapply no_leak_exec.
Qed.

Lemma reachable_exported_reachable s w :
  reachable_exported Equal unknown s w → reachable Equal unknown s w.
Proof. intros (ops & _ & Hrun). by exists ops. Qed.

(** ** Counting running observers *)

Lemma running_count_insert (h : list (@Observer Client Settings State)) p o o' :
  h !! p = Some o →
  running_count (<[p := o']> h) + (if stopped o then 0 else 1) =
  running_count h + (if stopped o' then 0 else 1).
Proof.
  unfold running_count. revert p.
  induction h as [|x h IH]; intros p Hp; [done|].
  destruct p as [|p]; simpl in *.
  - injection Hp as ->. rewrite !filter_cons.
    destruct (stopped o), (stopped o'); simpl; lia.
  - rewrite !filter_cons. specialize (IH p Hp).
    destruct (decide (stopped x = false)); simpl; [f_equal|]; exact IH.
Qed.

Lemma count_created clusterName c w :
  observers (mgr w) !! clusterName = None →
  running_count (heap w) = size (observers (mgr w)) →
  running_count (heap (created unknown clusterName c w)) =
  size (observers (mgr (created unknown clusterName c w))).
Proof.
  intros Hnone Hcount. unfold created. simpl.
  rewrite map_size_insert_None by done.
  unfold running_count in *. rewrite filter_app, length_app, Hcount.
  simpl. lia.
Qed.

Lemma count_unobserved clusterName old o0 w :
  observers (mgr w) !! clusterName = Some old → heap w !! old = Some o0 →
  stopped o0 = false →
  running_count (heap w) = size (observers (mgr w)) →
  running_count (heap (unobserved clusterName old o0 w)) =
  size (observers (mgr (unobserved clusterName old o0 w))).
Proof.
  intros Hp Ho Hrun Hcount. unfold unobserved. simpl.
  pose proof (running_count_insert (heap w) old o0 (stop o0) Ho) as Hins.
  rewrite Hrun in Hins. simpl in Hins.
  pose proof (map_size_delete_Some clusterName (observers (mgr w))
                (ltac:(by exists old))) as Hdel.
  unfold ptr in *. lia.
Qed.

Lemma count_observation q (st : State) w w' :
  observation q st w = Some (tt, w') →
  running_count (heap w') = running_count (heap w) ∧
  observers (mgr w') = observers (mgr w).
Proof.
  unfold observation. destruct (heap w !! q) as [oq|] eqn:Hq;
    [|by intros [= <-]].
  destruct (stopped oq) eqn:Hs; [by intros [= <-]|]. intros [= <-]. simpl.
  split; [|done].
  pose proof (running_count_insert (heap w) q oq (cache st oq) Hq) as Hins.
  simpl in Hins. rewrite Hs in Hins. lia.
Qed.

Lemma registry_inv_exec (op : @Op Client State) w w' :
  exec Equal unknown op w = Some (tt, w') → registry_inv w → registry_inv w'.
Proof.
  intros Hop Hinv. destruct (exec_inv op w Hinv) as (w1 & Hop1 & Hinv1).
  rewrite Hop in Hop1. by simplify_eq.
Qed.

Lemma count_exec (op : @Op Client State) w w' :
  exported op = true → exec Equal unknown op w = Some (tt, w') →
  registry_inv w →
  running_count (heap w) = size (observers (mgr w)) →
  running_count (heap w') = size (observers (mgr w')).
Proof.
  intros Hex Hop Hinv Hcount.
  destruct (exec_exported_inversion op w w' Hex Hop)
    as [->|[(n & c & p & HO)|[(n & HS)|(p & st & Hobs)]]]; [done| | |].
  - apply Observe_inversion in HO
      as [(Hnone & _ & ->)|(old & o & Hp & Ho & [(_ & _ & ->)|(_ & _ & ->)])].
    + by apply count_created.
    + done.
    + destruct (registry_inv_lookup _ _ _ Hinv Hp) as (o' & Ho' & _ & Hrun).
      assert (o' = o) as -> by congruence.
      apply count_created; [apply observers_unobserved_absent|].
      by apply count_unobserved.
  - apply StopObserving_inversion in HS as [[_ ->]|(old & o & Hp & Ho & ->)];
      [done|].
    destruct (registry_inv_lookup _ _ _ Hinv Hp) as (o' & Ho' & _ & Hrun).
    assert (o' = o) as -> by congruence.
    by apply count_unobserved.
  - apply count_observation in Hobs as [-> ->]. done.
Qed.

Lemma count_run (ops : list (@Op Client State)) w w' :
  forallb exported ops = true → run Equal unknown ops w = Some (tt, w') →
  registry_inv w →
  running_count (heap w) = size (observers (mgr w)) →
  running_count (heap w') = size (observers (mgr w')).
Proof.
  revert w. induction ops as [|op ops IH]; intros w Hex Hrun Hinv Hc;
    simpl in *.
  - unfold mret, Go_ret in Hrun. by simplify_eq.
  - apply andb_prop in Hex as [Hop Hex]. unfold mbind, Go_bind in Hrun.
    destruct (exec Equal unknown op w) as [[[] w1]|] eqn:E; [|done].
    eapply IH; [done|exact Hrun| |].
    + by eapply registry_inv_exec.
    + by eapply count_exec.
Qed.

(** X1: in every world a manager reaches when only its exported operations
    are called, one after the other, an allocated observer is running
    exactly when it is the observer registered for its cluster: the map
    misses no running observer and holds no stopped one. *)
Theorem exported_registered_iff_running s w :
  reachable_exported Equal unknown s w →
  ∀ p o, heap w !! p = Some o →
         (stopped o = false ↔ observers (mgr w) !! cluster o = Some p).
Proof.
  intros Hr p o Ho. split.
  - intros Hrun. destruct Hr as (ops & Hex & Hrun').
    eapply (no_leak_run ops _ w Hex Hrun'); [|exact Ho|exact Hrun].
    intros q oq Hq. done.
  - intros Hp. apply reachable_exported_reachable in Hr.
    destruct (registry_inv_lookup _ _ _ (reachable_inv s w Hr) Hp)
      as (o' & Ho' & _ & Hs).
    congruence.
Qed.

(** X2: in every such world [List] has as many clusters as there are
    running observers on the heap. *)
Theorem exported_List_counts_running s w :
  reachable_exported Equal unknown s w →
  ∃ l, List w = Some (l, w) ∧ length l = running_count (heap w).
Proof.
  intros (ops & Hex & Hrun). eexists. split; [apply List_eq|].
  rewrite length_fmap, length_map_to_list. symmetry.
  eapply (count_run ops _ w Hex Hrun).
  - apply registry_inv_init.
  - done.
Qed.

(** ** Observers the map does not hold *)

Lemma idle_created clusterName c w p n b :
  idle p n b w → idle p n b (created unknown clusterName c w).
Proof.
  intros (Hlt & Hun & Hn & Hb). unfold idle, created. simpl. split_and!.
  - rewrite length_app. lia.
  - intros name'. simpl. destruct (decide (clusterName = name')) as [->|Hne].
    + rewrite lookup_insert_eq. intros [= ?]. lia.
    + rewrite lookup_insert_ne by done. apply Hun.
  - by rewrite stops_of_created.
  - by rewrite lookup_app_l.
Qed.

Lemma idle_unobserved clusterName old o0 w p n b :
  observers (mgr w) !! clusterName = Some old →
  idle p n b w → idle p n b (unobserved clusterName old o0 w).
Proof.
  intros Hold (Hlt & Hun & Hn & Hb).
  assert (old ≠ p) as Hne by (intros ->; by apply (Hun clusterName)).
  unfold idle, unobserved. simpl. split_and!.
  - by rewrite length_insert.
  - intros name'. simpl. intros [_ Hp]%lookup_delete_Some. by apply (Hun name').
  - rewrite stops_of_snoc, decide_False by done. lia.
  - by rewrite list_lookup_insert_ne.
Qed.

Lemma idle_observation q (st : State) p n b :
  preserves (idle p n b)
    (observation (Client:=Client) (Settings:=Settings) q st).
Proof.
  intros w a w' (Hlt & Hun & Hn & Hb). unfold observation.
  destruct (heap w !! q) as [oq|] eqn:Hq; [|by intros [= _ <-]].
  destruct (stopped oq) eqn:Hs; [by intros [= _ <-]|]. intros [= _ <-].
  unfold idle. simpl. split_and!; try done.
  - by rewrite length_insert.
  - destruct (decide (q = p)) as [->|Hne].
    + rewrite list_lookup_insert_eq by done. rewrite Hq in Hb. done.
    + by rewrite list_lookup_insert_ne.
Qed.

Lemma idle_createObserver clusterName c p n b :
  preserves (Settings:=Settings) (idle p n b)
    (createObserver unknown clusterName c).
Proof.
  intros w a w' Hidle. rewrite createObserver_created. intros [= _ <-].
  by apply idle_created.
Qed.

Lemma idle_StopObserving clusterName p n b :
  preserves (idle p n b)
    (StopObserving (Client:=Client) (Settings:=Settings) (State:=State)
       clusterName).
Proof.
  intros w [] w' Hidle HS.
  apply StopObserving_inversion in HS as [[_ ->]|(old & o & Hp & Ho & ->)];
    [done|]. by apply idle_unobserved.
Qed.

Lemma idle_Observe clusterName c p n b :
  preserves (Settings:=Settings) (idle p n b)
    (Observe Equal unknown clusterName c).
Proof.
  intros w a w' Hidle HO.
  apply Observe_inversion in HO
    as [(Hnone & _ & ->)|(old & o & Hp & Ho & [(_ & _ & ->)|(_ & _ & ->)])].
  - by apply idle_created.
  - done.
  - by apply idle_created, idle_unobserved.
Qed.

Lemma idle_exec (op : @Op Client State) p n b :
  preserves (Settings:=Settings) (idle p n b) (exec Equal unknown op).
Proof.
  destruct op as [name c|name c|name c|name| |q st]; simpl.
  - apply preserves_bind; [apply idle_Observe|]. intros _. apply preserves_ret.
  - apply preserves_bind; [|intros _; apply preserves_ret].
    apply preserves_bind; [apply idle_Observe|]. intros q w a w' Hidle.
    unfold LastState. destruct (heap w !! q); [|done]. by intros [= _ <-].
  - apply preserves_bind; [apply idle_createObserver|].
    intros _. apply preserves_ret.
  - apply idle_StopObserving.
  - apply preserves_bind; [|intros _; apply preserves_ret].
    intros w a w' Hidle [= _ <-]. done.
  - apply idle_observation.
Qed.

Lemma idle_run (ops : list (@Op Client State)) p n b :
  preserves (Settings:=Settings) (idle p n b) (run Equal unknown ops).
Proof.
  induction ops as [|op ops IH]; simpl; [apply preserves_ret|].
  apply preserves_bind; [apply idle_exec|]. intros _. apply IH.
Qed.

(** X3: an observer that is allocated but that no entry of the map refers
    to is out of the manager's reach: whatever operations are called,
    [createObserver] included, it is never registered again and never
    stopped. *)
Theorem unregistered_out_of_reach (ops : list (@Op Client State)) w w' p o :
  heap w !! p = Some o →
  unregistered p w →
  run Equal unknown ops w = Some (tt, w') →
  unregistered p w' ∧
  stops_of p (events w') = stops_of p (events w) ∧
  ∃ o', heap w' !! p = Some o' ∧ stopped o' = stopped o.
Proof.
  intros Ho Hun Hrun.
  assert (idle p (stops_of p (events w)) (stopped o) w) as Hidle.
  { split_and!; try done; [by eapply lookup_lt_Some|by rewrite Ho]. }
  destruct (idle_run ops p _ _ w tt w' Hidle Hrun) as (_ & Hun' & Hn & Hb).
  split; [done|]. split; [done|].
  apply fmap_Some in Hb as (o' & Ho' & Hst). by exists o'.
Qed.

(** X4: [createObserver] on a cluster that already has an entry replaces
    the entry without stopping the observer it referred to: that observer
    is still running and no entry refers to it any more, after the call and
    after any further operations of the manager. *)
Theorem createObserver_overwrite_abandons clusterName c w old :
  registry_inv w →
  observers (mgr w) !! clusterName = Some old →
  ∃ w1, createObserver unknown clusterName c w = Some (length (heap w), w1) ∧
        observers (mgr w1) !! clusterName = Some (length (heap w)) ∧
        old ≠ length (heap w) ∧
        ∀ (ops : list (@Op Client State)) w2,
          run Equal unknown ops w1 = Some (tt, w2) →
          unregistered old w2 ∧
          stops_of old (events w2) = stops_of old (events w) ∧
          ∃ o, heap w2 !! old = Some o ∧ stopped o = false.
Proof.
  intros Hinv Hold.
  destruct (registry_inv_lookup _ _ _ Hinv Hold) as (o & Ho & Hc & Hs).
  assert (old < length (heap w)) as Hlt by (by eapply lookup_lt_Some).
  exists (created unknown clusterName c w).
  split; [apply createObserver_created|].
  split; [unfold created; simpl; apply lookup_insert_eq|].
  split; [lia|]. intros ops w2 Hrun.
  assert (idle old (stops_of old (events w)) false
            (created unknown clusterName c w)) as Hidle.
  { unfold idle, created. simpl. split_and!.
    - rewrite length_app. lia.
    - intros name'. simpl. destruct (decide (clusterName = name')) as [->|Hne].
      + rewrite lookup_insert_eq. intros [= ?]. lia.
      + rewrite lookup_insert_ne by done. intros Hp'. apply Hne.
        eapply live_for_inj; by apply (Hinv _ _).
    - by rewrite stops_of_created.
    - rewrite lookup_app_l by done. unfold ptr in *. by rewrite Ho, <- Hs. }
  destruct (idle_run ops old _ _ _ tt w2 Hidle Hrun) as (_ & Hun' & Hn & Hb).
  split; [done|]. split; [done|].
  apply fmap_Some in Hb as (o' & Ho' & Hst). by exists o'.
Qed.

(** ** What no operation changes *)

Lemma extends_refl w : extends w w.
Proof. split; [done|]. intros p o Ho. by exists o. Qed.

Lemma extends_trans w1 w2 w3 : extends w1 w2 → extends w2 w3 → extends w1 w3.
Proof.
  intros [Hs12 H12] [Hs23 H23]. split; [congruence|]. intros p o Ho.
  destruct (H12 p o Ho) as (o2 & Ho2 & Hc2 & He2 & Hset2 & Hst2).
  destruct (H23 p o2 Ho2) as (o3 & Ho3 & Hc3 & He3 & Hset3 & Hst3).
  exists o3. split_and!; [done|congruence..|auto].
Qed.

Lemma extends_update w w' q oq oq' :
  settings (mgr w') = settings (mgr w) →
  heap w !! q = Some oq →
  heap w' = <[q := oq']> (heap w) →
  cluster oq' = cluster oq → esClient oq' = esClient oq →
  obsSettings oq' = obsSettings oq →
  (stopped oq = true → stopped oq' = true) →
  extends w w'.
Proof.
  intros Hs Hq Hh Hc He Hset Hst. split; [done|]. intros p o Ho.
  rewrite Hh. destruct (decide (p = q)) as [->|Hne].
  - exists oq'. rewrite list_lookup_insert_eq by (by eapply lookup_lt_Some).
    assert (o = oq) as -> by congruence. done.
  - exists o. by rewrite list_lookup_insert_ne.
Qed.

Lemma steady_ret {A} (a : A) : @steady Client Settings State A (mret a).
Proof. intros w a' w' [= _ <-]. apply extends_refl. Qed.

Lemma steady_bind {A B} (m : @Go Client Settings State A) (f : A → Go B) :
  steady m → (∀ a, steady (f a)) → steady (m ≫= f).
Proof.
  intros Hm Hf w b w'. unfold mbind, Go_bind.
  destruct (m w) as [[a w1]|] eqn:E; [|done]. intros Hfa.
  eapply extends_trans; [by eapply Hm|by eapply Hf].
Qed.

Lemma steady_lookupObserver clusterName :
  steady (lookupObserver (Client:=Client) (Settings:=Settings) (State:=State)
            clusterName).
Proof. intros w a w' [= _ <-]. apply extends_refl. Qed.

Lemma steady_getSettings :
  steady (getSettings (Client:=Client) (Settings:=Settings) (State:=State)).
Proof. intros w a w' [= _ <-]. apply extends_refl. Qed.

Lemma steady_storeObserver clusterName p :
  steady (storeObserver (Client:=Client) (Settings:=Settings) (State:=State)
            clusterName p).
Proof.
  intros w a w' [= _ <-]. split; [done|]. intros q o Ho. by exists o.
Qed.

Lemma steady_deleteObserver clusterName :
  steady (deleteObserver (Client:=Client) (Settings:=Settings) (State:=State)
            clusterName).
Proof.
  intros w a w' [= _ <-]. split; [done|]. intros q o Ho. by exists o.
Qed.

Lemma steady_NewObserver clusterName c s :
  steady (NewObserver unknown clusterName c s).
Proof.
  intros w a w' [= _ <-]. split; [done|]. intros q o Ho. exists o.
  simpl. rewrite lookup_app_l; [done|]. by eapply lookup_lt_Some.
Qed.

Lemma steady_Stop p :
  steady (Stop (Client:=Client) (Settings:=Settings) (State:=State) p).
Proof.
  intros w a w'. unfold Stop. destruct (heap w !! p) as [o|] eqn:Ho; [|done].
  intros [= _ <-]. by eapply (extends_update _ _ p o (stop o)).
Qed.

Lemma steady_LastState p :
  steady (A:=State) (LastState (Client:=Client) (Settings:=Settings) p).
Proof.
  intros w a w'. unfold LastState. destruct (heap w !! p); [|done].
  intros [= _ <-]. apply extends_refl.
Qed.

Lemma steady_getEsClient p :
  steady (A:=Client) (getEsClient (Settings:=Settings) (State:=State) p).
Proof.
  intros w a w'. unfold getEsClient. destruct (heap w !! p); [|done].
  intros [= _ <-]. apply extends_refl.
Qed.

Lemma steady_List :
  steady (List (Client:=Client) (Settings:=Settings) (State:=State)).
Proof. intros w a w' [= _ <-]. apply extends_refl. Qed.

Lemma steady_observation p (st : State) :
  steady (observation (Client:=Client) (Settings:=Settings) p st).
Proof.
  intros w a w'. unfold observation.
  destruct (heap w !! p) as [o|] eqn:Ho;
    [|intros [= _ <-]; apply extends_refl].
  destruct (stopped o) eqn:Hs; [intros [= _ <-]; apply extends_refl|].
  intros [= _ <-]. by eapply (extends_update _ _ p o (cache st o)).
Qed.

Lemma steady_createObserver clusterName c :
  steady (Settings:=Settings) (createObserver unknown clusterName c).
Proof.
  apply steady_bind; [apply steady_getSettings|]. intros s.
  apply steady_bind; [apply steady_NewObserver|]. intros p.
  apply steady_bind; [apply steady_storeObserver|]. intros _.
  apply steady_ret.
Qed.

Lemma steady_StopObserving clusterName :
  steady (StopObserving (Client:=Client) (Settings:=Settings) (State:=State)
            clusterName).
Proof.
  apply steady_bind; [apply steady_lookupObserver|].
  intros [p|]; [|apply steady_ret].
  apply steady_bind; [apply steady_Stop|]. intros _.
  apply steady_deleteObserver.
Qed.

Lemma steady_Observe clusterName c :
  steady (Settings:=Settings) (Observe Equal unknown clusterName c).
Proof.
  apply steady_bind; [apply steady_lookupObserver|].
  intros [p|]; [|apply steady_createObserver].
  apply steady_bind; [apply steady_getEsClient|].
  intros bound. destruct (negb (Equal bound c)); [|apply steady_ret].
  apply steady_bind; [apply steady_StopObserving|]. intros _.
  apply steady_createObserver.
Qed.

Lemma steady_exec (op : @Op Client State) :
  steady (Settings:=Settings) (exec Equal unknown op).
Proof.
  destruct op as [n c|n c|n c|n| |p st]; simpl.
  - apply steady_bind; [apply steady_Observe|]. intros _. apply steady_ret.
  - apply steady_bind; [|intros _; apply steady_ret].
    apply steady_bind; [apply steady_Observe|]. intros p.
    apply steady_LastState.
  - apply steady_bind; [apply steady_createObserver|]. intros _.
    apply steady_ret.
  - apply steady_StopObserving.
  - apply steady_bind; [apply steady_List|]. intros _. apply steady_ret.
  - apply steady_observation.
Qed.

Lemma steady_run (ops : list (@Op Client State)) :
  steady (Settings:=Settings) (run Equal unknown ops).
Proof.
  induction ops as [|op ops IH]; simpl; [apply steady_ret|].
  apply steady_bind; [apply steady_exec|]. intros _. apply IH.
Qed.

(** X9: no sequence of operations changes the settings the manager holds,
    removes an observer from its address, binds it to another cluster,
    client or settings, or makes a stopped observer run again. *)
Theorem operations_never_rebind (ops : list (@Op Client State)) w w' :
  run Equal unknown ops w = Some (tt, w') →
  settings (mgr w') = settings (mgr w) ∧
  ∀ p o, heap w !! p = Some o →
         ∃ o', heap w' !! p = Some o' ∧
               cluster o' = cluster o ∧
               esClient o' = esClient o ∧
               obsSettings o' = obsSettings o ∧
               (stopped o = true → stopped o' = true).
Proof. intros Hrun. exact (steady_run ops w tt w' Hrun). Qed.

(** ** How the operations compose *)

Lemma Observe_created_hit clusterName c w :
  Equal c c = true →
  Observe Equal unknown clusterName c (created unknown clusterName c w) =
  Some (length (heap w), created unknown clusterName c w).
Proof.
  intros Hrefl.
  apply (Observe_hit_eq _ _ _ _
           (mkObserver clusterName c (settings (mgr w)) false unknown)).
  - unfold created. simpl. apply lookup_insert_eq.
  - unfold created. simpl. by rewrite lookup_app_r, Nat.sub_diag.
  - done.
Qed.

Lemma Observe_observers clusterName c w p w' :
  Observe Equal unknown clusterName c w = Some (p, w') →
  observers (mgr w') = <[clusterName := p]> (observers (mgr w)).
Proof.
  intros HO. apply Observe_inversion in HO
    as [(Hnone & -> & ->)|(old & o & Hp & Ho & [(_ & -> & ->)|(_ & -> & ->)])].
  - done.
  - by rewrite insert_id.
  - unfold created, unobserved. simpl.
    by rewrite length_insert, insert_delete_eq.
Qed.

Lemma StopObserving_observers clusterName w w' :
  StopObserving clusterName w = Some (tt, w') →
  observers (mgr w') = delete clusterName (observers (mgr w)).
Proof.
  intros HS.
  apply StopObserving_inversion in HS as [[Hnone ->]|(old & o & _ & _ & ->)].
  - by rewrite delete_id.
  - done.
Qed.

(** X5: when [Observe] has returned an observer for a client that is
    [Equal] to itself, calling [Observe] again with the same cluster and
    client returns the same observer and changes nothing, and
    [ObservedStateResolver] returns that observer's cached state. *)
Theorem Observe_twice clusterName c w p w1 :
  Equal c c = true →
  Observe Equal unknown clusterName c w = Some (p, w1) →
  Observe Equal unknown clusterName c w1 = Some (p, w1) ∧
  ∃ o, heap w1 !! p = Some o ∧
       ObservedStateResolver Equal unknown clusterName c w1 =
         Some (lastState o, w1).
Proof.
  intros Hrefl HO.
  assert (Observe Equal unknown clusterName c w1 = Some (p, w1)) as HO2.
  { apply Observe_inversion in HO
      as [(_ & -> & ->)|(old & o & Hp & Ho & [(He & -> & ->)|(_ & -> & ->)])].
    - by apply Observe_created_hit.
    - by apply (Observe_hit_eq _ _ _ _ _ Hp Ho He).
    - rewrite (Observe_created_hit _ _ _ Hrefl). unfold unobserved. simpl.
      by rewrite length_insert. }
  split; [exact HO2|].
  pose proof HO2 as HO3. apply Observe_inversion in HO3
    as [(_ & _ & Hw)|(old & o & Hp & Ho & [(He & -> & _)|(_ & _ & Hw)])].
  - exfalso. apply (f_equal (λ w, length (heap w))) in Hw.
    unfold created in Hw. simpl in Hw. rewrite length_app in Hw. simpl in Hw. lia.
  - exists o. split; [done|].
    unfold ObservedStateResolver, mbind, Go_bind. rewrite HO2.
    unfold LastState. by rewrite Ho.
  - exfalso. apply (f_equal (λ w, length (heap w))) in Hw.
    unfold created, unobserved in Hw. simpl in Hw.
    rewrite length_app, length_insert in Hw. simpl in Hw. lia.
Qed.

(** X6: unless the map holds an observer for the cluster whose client is
    [Equal] to the supplied one, [Observe] does what [StopObserving]
    followed by [Observe] does: replacing an observer and tearing it down
    before observing again end in the same world with the same result. *)
Theorem Observe_as_stop_then_observe clusterName c w :
  (∀ p o, observers (mgr w) !! clusterName = Some p →
          heap w !! p = Some o → Equal (esClient o) c = false) →
  Observe Equal unknown clusterName c w =
  (StopObserving clusterName ≫= λ _, Observe Equal unknown clusterName c) w.
Proof.
  intros Hne. unfold mbind at 1, Go_bind at 1.
  destruct (observers (mgr w) !! clusterName) as [old|] eqn:Hp.
  - destruct (heap w !! old) as [o|] eqn:Ho.
    + rewrite (Observe_swap_created _ _ _ _ _ Hp Ho (Hne old o eq_refl Ho)).
      rewrite (StopObserving_unobserved _ _ _ _ Hp Ho).
      rewrite (Observe_miss_eq _ _ _ (observers_unobserved_absent _ _ _ _)).
      rewrite createObserver_created. unfold unobserved at 2. simpl.
      by rewrite length_insert.
    + go_unfold. by rewrite Hp, Ho.
  - by rewrite (StopObserving_absent _ _ Hp).
Qed.

(** X7: in a world that satisfies the invariant, [Observe] followed by
    [StopObserving] of the same cluster leaves a map without that cluster
    and otherwise as it was before the two calls (the map it was, when the
    cluster had no entry), the observer that [Observe] returned is stopped,
    and the invariant holds again. *)
Theorem Observe_then_StopObserving clusterName c w :
  registry_inv w →
  ∃ p w1 w2,
    Observe Equal unknown clusterName c w = Some (p, w1) ∧
    StopObserving clusterName w1 = Some (tt, w2) ∧
    observers (mgr w2) = delete clusterName (observers (mgr w)) ∧
    (observers (mgr w) !! clusterName = None →
     observers (mgr w2) = observers (mgr w)) ∧
    (∃ o, heap w2 !! p = Some o ∧ stopped o = true) ∧
    stops_of p (events w2) = S (stops_of p (events w1)) ∧
    registry_inv w2.
Proof.
  intros Hinv.
  destruct (Observe_inv clusterName c w Hinv) as (p & w1 & HO & Hinv1 & Hp1).
  destruct (registry_inv_lookup _ _ _ Hinv1 Hp1) as (o & Ho & _).
  destruct (StopObserving_inv clusterName w1 Hinv1) as (w2 & HS & Hinv2 & Hobs).
  exists p, w1, w2. split; [done|]. split; [done|].
  assert (observers (mgr w2) = delete clusterName (observers (mgr w))) as Hdel.
  { rewrite Hobs, (Observe_observers _ _ _ _ _ HO). apply delete_insert_eq. }
  split; [done|]. split; [intros Hnone; by rewrite Hdel, delete_id|].
  rewrite (StopObserving_unobserved _ _ _ _ Hp1 Ho) in HS.
  injection HS as <-. unfold unobserved. simpl. split_and!.
  - exists (stop o). split; [|done].
    apply list_lookup_insert_eq. by eapply lookup_lt_Some.
  - rewrite stops_of_snoc, decide_True by done. lia.
  - done.
Qed.

(** X8: [List] follows the other operations: after [Observe] it holds the
    observed cluster and the clusters it held before, one more than before
    exactly when the cluster had no entry; after [StopObserving] it holds
    the clusters it held before except the one given, one fewer exactly
    when the cluster had an entry. *)
Theorem List_follows clusterName w :
  (∀ c p w',
     Observe Equal unknown clusterName c w = Some (p, w') →
     ∃ l l', List w = Some (l, w) ∧ List w' = Some (l', w') ∧
             (∀ n, n ∈ l' ↔ n = clusterName ∨ n ∈ l) ∧
             length l' = match observers (mgr w) !! clusterName with
                         | Some _ => length l
                         | None => S (length l)
                         end) ∧
  (∀ w',
     StopObserving clusterName w = Some (tt, w') →
     ∃ l l', List w = Some (l, w) ∧ List w' = Some (l', w') ∧
             (∀ n, n ∈ l' ↔ n ≠ clusterName ∧ n ∈ l) ∧
             length l = match observers (mgr w) !! clusterName with
                        | Some _ => S (length l')
                        | None => length l'
                        end).
Proof.
  split.
  - intros c p w' HO. eexists _, _.
    split; [apply List_eq|]. split; [apply List_eq|].
    rewrite (Observe_observers _ _ _ _ _ HO). split.
    + intros n. rewrite !elem_of_keys, lookup_insert_is_Some. split.
      * intros [->|[_ Hn]]; [by left|by right].
      * intros [->|Hn]; [by left|].
        destruct (decide (clusterName = n)); [by left|by right].
    + rewrite !length_fmap, !length_map_to_list, map_size_insert.
      by destruct (observers (mgr w) !! clusterName).
  - intros w' HS. eexists _, _.
    split; [apply List_eq|]. split; [apply List_eq|].
    rewrite (StopObserving_observers _ _ _ HS). split.
    + intros n. rewrite !elem_of_keys, lookup_delete_is_Some.
      split; intros [Hne Hn]; (split; [by apply not_eq_sym|done]).
    + rewrite !length_fmap, !length_map_to_list, map_size_delete.
      destruct (observers (mgr w) !! clusterName) eqn:Hp; simpl; [|done].
      assert (size (observers (mgr w)) ≠ 0); [|lia].
      intros Hz%map_size_empty_inv. by rewrite Hz, lookup_empty in Hp.
Qed.

End Properties.

(** * The claims at the concrete instance *)

Lemma world2_reachable :
  reachable Demo.Equal Demo.unknown Demo.interval Demo.world2.
Proof. exists Demo.ops2. vm_compute. reflexivity. Defined.

Lemma registry_invariant_witness :
  reachable Demo.Equal Demo.unknown Demo.interval Demo.world2 ∧
  (∀ clusterName p,
     observers (mgr Demo.world2) !! clusterName = Some p →
     (Stopped p ∉ events Demo.world2) ∧
     (∃ o, heap Demo.world2 !! p = Some o ∧ stopped o = false)).
Proof.
  split; [exact world2_reachable|].
  exact (proj1 (proj2 (registry_invariant Demo.Equal Demo.unknown
                         Demo.interval Demo.world2 world2_reachable))).
Defined.

Lemma createObserver_semantics_witness :
  reachable Demo.Equal Demo.unknown Demo.interval Demo.world2 ∧
  ∃ w', createObserver Demo.unknown Demo.es1 Demo.clientC
          Demo.world2 = Some (2, w') ∧
        settings (mgr w') = Demo.interval ∧
        Forall (λ o, obsSettings o = Demo.interval) (heap w').
Proof.
  split; [exact world2_reachable|].
  destruct (createObserver_semantics Demo.Equal Demo.unknown Demo.interval
              Demo.world2 Demo.es1 Demo.clientC world2_reachable)
    as (w' & Hc & _ & _ & _ & Hset & _ & _ & _ & Hall).
  exists w'. split; [exact Hc|]. split; [exact Hset|exact Hall].
Defined.

Lemma Observe_creates_witness :
  observers (mgr (initWorld (Client:=Demo.Client) (State:=Demo.State) Demo.interval))
    !! Demo.es1 = None ∧
  ∃ w', Observe Demo.Equal Demo.unknown Demo.es1 Demo.clientA
          (initWorld Demo.interval) = Some (0, w') ∧
        ObservedStateResolver Demo.Equal Demo.unknown Demo.es1
          Demo.clientA (initWorld Demo.interval) = Some (None, w').
Proof.
  split; [reflexivity|].
  destruct (Observe_creates Demo.Equal Demo.unknown Demo.es1
              Demo.clientA (initWorld Demo.interval) eq_refl)
    as (w' & HO & HR & _).
  exists w'. split; [exact HO|exact HR].
Defined.

Lemma world2_inv : registry_inv Demo.world2.
Proof. apply (bool_decide_unpack _). vm_compute. exact I. Defined.

Lemma Observe_replaces_witness :
  observers (mgr Demo.world2) !! Demo.es1 = Some 0 ∧
  heap Demo.world2 !! 0 =
    Some (mkObserver Demo.es1 Demo.clientA Demo.interval false Demo.green) ∧
  Demo.Equal Demo.clientA Demo.clientC = false ∧
  ∃ w2, Observe Demo.Equal Demo.unknown Demo.es1 Demo.clientC Demo.world2
          = Some (2, w2) ∧
        events w2 = events Demo.world2 ++ [Stopped 0; Created 2] ∧
        stops_of 0 (events w2) = 1.
Proof.
  assert (observers (mgr Demo.world2) !! Demo.es1 = Some 0) as H1
    by (vm_compute; reflexivity).
  assert (heap Demo.world2 !! 0 =
            Some (mkObserver Demo.es1 Demo.clientA Demo.interval false Demo.green))
    as H2 by reflexivity.
  assert (Demo.Equal Demo.clientA Demo.clientC = false) as H3
    by (vm_compute; reflexivity).
  split; [exact H1|]. split; [exact H2|]. split; [exact H3|].
  destruct (Observe_replaces Demo.Equal Demo.unknown Demo.es1 Demo.clientC
              Demo.world2 0 _ H1 H2 H3)
    as (w1 & w2 & _ & _ & _ & _ & _ & HO & _ & _ & _ & _ & _ & He & _ & _ & Hone).
  exists w2. split; [exact HO|]. split; [exact He|].
  exact (Hone Demo.interval world2_reachable).
Defined.

Lemma Observe_reuses_witness :
  (observers (mgr Demo.world2) !! Demo.es1 = Some 0 ∧
   Demo.Equal Demo.clientA Demo.clientA = true ∧
   ObservedStateResolver Demo.Equal Demo.unknown Demo.es1 Demo.clientA
     Demo.world2 = Some (Demo.green, Demo.world2) ∧
   ObserveAll Demo.Equal Demo.unknown Demo.es1 [Demo.clientA; Demo.clientA]
     Demo.world2 = Some ([0; 0], Demo.world2)) ∧
  (registry_inv Demo.world2 ∧
   unchanged Demo.Equal [Demo.clientC; Demo.clientC; Demo.clientC] = true ∧
   ∃ ps w', ObserveAll Demo.Equal Demo.unknown Demo.es1
              [Demo.clientC; Demo.clientC; Demo.clientC] Demo.world2
              = Some (ps, w') ∧
            creations (events w') ≤ S (creations (events Demo.world2))) ∧
  (Demo.Equal Demo.clientB Demo.clientB = true ∧
   ∃ ps w', ObserveAll Demo.Equal Demo.unknown Demo.es1
              (replicate 4 Demo.clientB) Demo.world2 = Some (ps, w') ∧
            creations (events w') ≤ S (creations (events Demo.world2))).
Proof.
  destruct (Observe_reuses Demo.Equal Demo.unknown Demo.es1 Demo.world2)
    as (Hframe & Hhot & Hseq & Hsame).
  assert (observers (mgr Demo.world2) !! Demo.es1 = Some 0) as H1
    by (vm_compute; reflexivity).
  assert (Demo.Equal Demo.clientA Demo.clientA = true) as H2
    by (vm_compute; reflexivity).
  assert (unchanged Demo.Equal [Demo.clientC; Demo.clientC; Demo.clientC] = true)
    as H3 by (vm_compute; reflexivity).
  assert (Demo.Equal Demo.clientB Demo.clientB = true) as H4
    by (vm_compute; reflexivity).
  assert (forallb (Demo.Equal Demo.clientA) [Demo.clientA; Demo.clientA] = true)
    as H5 by (vm_compute; reflexivity).
  split; [|split].
  - split; [exact H1|]. split; [exact H2|]. split.
    + exact (proj2 (Hframe Demo.clientA 0
                      (mkObserver Demo.es1 Demo.clientA Demo.interval false Demo.green)
                      H1 eq_refl H2)).
    + exact (Hhot [Demo.clientA; Demo.clientA] 0
               (mkObserver Demo.es1 Demo.clientA Demo.interval false Demo.green)
               H1 eq_refl H5).
  - split; [exact world2_inv|]. split; [exact H3|].
    destruct (Hseq _ world2_inv H3) as (ps & w' & HA & Hc & _).
    exists ps, w'. split; [exact HA|exact Hc].
  - split; [exact H4|].
    destruct (Hsame Demo.clientB 4 world2_inv H4) as (ps & w' & HA & Hc & _).
    exists ps, w'. split; [exact HA|exact Hc].
Defined.

Lemma StopObserving_idempotent_witness :
  (observers (mgr Demo.world3) !! Demo.es1 = None ∧
   StopObserving Demo.es1 Demo.world3 = Some (tt, Demo.world3)) ∧
  (registry_inv Demo.world2 ∧
   ∃ w1, StopObserving Demo.es1 Demo.world2 = Some (tt, w1) ∧
         StopObserving Demo.es1 w1 = Some (tt, w1)) ∧
  (StopObserving Demo.es1 Demo.world2 = Some (tt, Demo.world3) ∧
   StopObserving Demo.es1 Demo.world3 = Some (tt, Demo.world3)).
Proof.
  assert (observers (mgr Demo.world3) !! Demo.es1 = None) as H1
    by (vm_compute; reflexivity).
  assert (StopObserving Demo.es1 Demo.world2 = Some (tt, Demo.world3)) as H2
    by (vm_compute; reflexivity).
  split; [|split].
  - split; [exact H1|].
    exact (proj1 (StopObserving_idempotent Demo.es1 Demo.world3) H1).
  - split; [exact world2_inv|].
    exact (proj1 (proj2 (StopObserving_idempotent Demo.es1 Demo.world2))
             world2_inv).
  - split; [exact H2|].
    exact (proj2 (proj2 (StopObserving_idempotent Demo.es1 Demo.world2))
             Demo.world3 H2).
Defined.

Lemma StopObserving_then_fresh_witness :
  StopObserving Demo.es1 Demo.world2 = Some (tt, Demo.world3) ∧
  (∃ l, List Demo.world3 = Some (l, Demo.world3) ∧ Demo.es1 ∉ l) ∧
  ∃ w2, Observe Demo.Equal Demo.unknown Demo.es1 Demo.clientA Demo.world3
          = Some (2, w2) ∧
        heap Demo.world3 !! 2 = None ∧
        ∃ o, heap w2 !! 0 = Some o ∧ stopped o = true.
Proof.
  assert (StopObserving Demo.es1 Demo.world2 = Some (tt, Demo.world3)) as H1
    by (vm_compute; reflexivity).
  assert (observers (mgr Demo.world2) !! Demo.es1 = Some 0) as H0
    by (vm_compute; reflexivity).
  split; [exact H1|].
  destruct (StopObserving_then_fresh Demo.Equal Demo.unknown Demo.es1
              Demo.world2 Demo.world3 H1) as [HL HO].
  split; [exact HL|].
  destruct (HO Demo.clientA) as (w2 & H2 & _ & H3 & _ & _ & _ & Hold).
  exists w2. split; [exact H2|]. split; [exact H3|].
  exact (proj2 (Hold 0 H0)).
Defined.

Lemma ObservedStateResolver_refines_witness :
  registry_inv Demo.world2 ∧
  ∃ observer o w',
    Observe Demo.Equal Demo.unknown Demo.es2 Demo.clientB Demo.world2
      = Some (observer, w') ∧
    heap w' !! observer = Some o ∧
    ObservedStateResolver Demo.Equal Demo.unknown Demo.es2 Demo.clientB
      Demo.world2 = Some (lastState o, w').
Proof.
  split; [exact world2_inv|].
  exact (proj2 (proj2 (ObservedStateResolver_refines Demo.Equal Demo.unknown
                         Demo.es2 Demo.clientB Demo.world2)) world2_inv).
Defined.

Lemma Observe_registers_and_frames_witness :
  registry_inv Demo.world2 ∧
  Demo.Equal Demo.clientC Demo.clientC = true ∧
  Demo.es2 ≠ Demo.es1 ∧
  (∃ p o w',
     Observe Demo.Equal Demo.unknown Demo.es1 Demo.clientC Demo.world2
       = Some (p, w') ∧
     observers (mgr w') !! Demo.es1 = Some p ∧
     heap w' !! p = Some o ∧
     Demo.Equal (esClient o) Demo.clientC = true) ∧
  (∃ w', StopObserving Demo.es1 Demo.world2 = Some (tt, w') ∧
         observers (mgr w') !! Demo.es2 = observers (mgr Demo.world2) !! Demo.es2).
Proof.
  assert (Demo.Equal Demo.clientC Demo.clientC = true) as H2
    by (vm_compute; reflexivity).
  assert (Demo.es2 ≠ Demo.es1) as H3 by discriminate.
  destruct (Observe_registers_and_frames Demo.Equal Demo.unknown Demo.es1
              Demo.world2 world2_inv) as [Hreg Hframe].
  split; [exact world2_inv|]. split; [exact H2|]. split; [exact H3|]. split.
  - destruct (Hreg Demo.clientC) as (p & o & w' & HO & Hp & Ho & _ & _ & He).
    exists p, o, w'. split; [exact HO|]. split; [exact Hp|].
    split; [exact Ho|exact (He H2)].
  - destruct (proj2 (Hframe Demo.es2 H3)) as (w' & HS & Hobs & _).
    exists w'. split; [exact HS|exact Hobs].
Defined.

(** The scenario of the specification: resolve [es1] with a client, resolve
    it again with the same client, resolve it with another client, stop
    observing it, list. *)
Example end_to_end_scenario :
  ∃ w, run Demo.Equal Demo.unknown
         [OpResolve Demo.es1 Demo.clientA; OpResolve Demo.es1 Demo.clientA;
          OpResolve Demo.es1 Demo.clientB; OpStopObserving Demo.es1]
         (initWorld Demo.interval) = Some (tt, w) ∧
       events w = [Created 0; Stopped 0; Created 1; Stopped 1] ∧
       List w = Some ([], w).
Proof.
  eexists. split; [vm_compute; reflexivity|].
  split; vm_compute; reflexivity.
Qed.

(** Inside [StopObserving], between [observer.Stop()] and the deletion of
    the entry, the map still holds the stopped observer: the invariant is
    one of completed operations. *)
Example StopObserving_window :
  ∃ w, (lookupObserver Demo.es1 ≫= λ _, Stop 0) Demo.world2 = Some (tt, w) ∧
       observers (mgr w) !! Demo.es1 = Some 0 ∧
       ¬ registry_inv w ∧
       deleteObserver Demo.es1 w = Some (tt, Demo.world3).
Proof.
  eexists. split; [vm_compute; reflexivity|].
  split; [vm_compute; reflexivity|].
  split; [|vm_compute; reflexivity].
  apply (bool_decide_eq_false_1 _). vm_compute. reflexivity.
Qed.

(** * The further properties at the concrete instance *)

Lemma world3_reachable_exported :
  reachable_exported Demo.Equal Demo.unknown Demo.interval Demo.world3.
Proof.
  exists Demo.ops3. split; [reflexivity|]. vm_compute. reflexivity.
Defined.

Lemma exported_registered_iff_running_witness :
  reachable_exported Demo.Equal Demo.unknown Demo.interval Demo.world3 ∧
  (stopped (mkObserver Demo.es2 Demo.clientB Demo.interval false Demo.unknown)
     = false ↔
   observers (mgr Demo.world3) !! Demo.es2 = Some 1) ∧
  (stopped (mkObserver Demo.es1 Demo.clientA Demo.interval true Demo.green)
     = false ↔
   observers (mgr Demo.world3) !! Demo.es1 = Some 0).
Proof.
  split; [exact world3_reachable_exported|]. split.
  - exact (exported_registered_iff_running Demo.Equal Demo.unknown
             Demo.interval Demo.world3 world3_reachable_exported 1 _ eq_refl).
  - exact (exported_registered_iff_running Demo.Equal Demo.unknown
             Demo.interval Demo.world3 world3_reachable_exported 0 _ eq_refl).
Defined.

Lemma exported_List_counts_running_witness :
  reachable_exported Demo.Equal Demo.unknown Demo.interval Demo.world3 ∧
  ∃ l, List Demo.world3 = Some (l, Demo.world3) ∧
       length l = running_count (heap Demo.world3).
Proof.
  split; [exact world3_reachable_exported|].
  exact (exported_List_counts_running Demo.Equal Demo.unknown Demo.interval
           Demo.world3 world3_reachable_exported).
Defined.

Lemma world3_unregistered_0 : unregistered 0 Demo.world3.
Proof.
  intros clusterName. unfold Demo.world3. simpl.
  intros [[_ Heq]|[_ Hin]]%lookup_insert_Some; [discriminate|].
  rewrite lookup_empty in Hin. discriminate.
Defined.

Lemma unregistered_out_of_reach_witness :
  heap Demo.world3 !! 0 =
    Some (mkObserver Demo.es1 Demo.clientA Demo.interval true Demo.green) ∧
  unregistered 0 Demo.world3 ∧
  ∃ w', run Demo.Equal Demo.unknown
          [OpObserve Demo.es1 Demo.clientA; OpStopObserving Demo.es1;
           OpCreate Demo.es2 Demo.clientC] Demo.world3 = Some (tt, w') ∧
        unregistered 0 w' ∧
        stops_of 0 (events w') = stops_of 0 (events Demo.world3).
Proof.
  split; [reflexivity|]. split; [exact world3_unregistered_0|].
  assert (∃ w', run Demo.Equal Demo.unknown
                  [OpObserve Demo.es1 Demo.clientA; OpStopObserving Demo.es1;
                   OpCreate Demo.es2 Demo.clientC] Demo.world3 = Some (tt, w'))
    as [w' Hrun] by (eexists; vm_compute; reflexivity).
  exists w'. split; [exact Hrun|].
  destruct (unregistered_out_of_reach Demo.Equal Demo.unknown _ Demo.world3 w'
              0 _ eq_refl world3_unregistered_0 Hrun) as (Hun & Hn & _).
  split; [exact Hun|exact Hn].
Defined.

Lemma createObserver_overwrite_abandons_witness :
  registry_inv Demo.world2 ∧
  observers (mgr Demo.world2) !! Demo.es1 = Some 0 ∧
  ∃ w1, createObserver Demo.unknown Demo.es1 Demo.clientC Demo.world2
          = Some (2, w1) ∧
        ∀ ops w2,
          run Demo.Equal Demo.unknown ops w1 = Some (tt, w2) →
          unregistered 0 w2 ∧
          stops_of 0 (events w2) = stops_of 0 (events Demo.world2) ∧
          ∃ o, heap w2 !! 0 = Some o ∧ stopped o = false.
Proof.
  assert (observers (mgr Demo.world2) !! Demo.es1 = Some 0) as H1
    by (vm_compute; reflexivity).
  split; [exact world2_inv|]. split; [exact H1|].
  destruct (createObserver_overwrite_abandons Demo.Equal Demo.unknown
              Demo.es1 Demo.clientC Demo.world2 0 world2_inv H1)
    as (w1 & Hc & _ & _ & Hall).
  exists w1. split; [exact Hc|exact Hall].
Defined.

Lemma Observe_twice_witness :
  Demo.Equal Demo.clientC Demo.clientC = true ∧
  ∃ w1, Observe Demo.Equal Demo.unknown Demo.es1 Demo.clientC Demo.world2
          = Some (2, w1) ∧
        Observe Demo.Equal Demo.unknown Demo.es1 Demo.clientC w1
          = Some (2, w1).
Proof.
  assert (Demo.Equal Demo.clientC Demo.clientC = true) as H1
    by (vm_compute; reflexivity).
  assert (∃ w1, Observe Demo.Equal Demo.unknown Demo.es1 Demo.clientC
                  Demo.world2 = Some (2, w1))
    as [w1 HO] by (eexists; vm_compute; reflexivity).
  split; [exact H1|]. exists w1. split; [exact HO|].
  exact (proj1 (Observe_twice Demo.Equal Demo.unknown Demo.es1 Demo.clientC
                  Demo.world2 2 w1 H1 HO)).
Defined.

Lemma Observe_as_stop_then_observe_witness :
  (∀ p o, observers (mgr Demo.world2) !! Demo.es1 = Some p →
          heap Demo.world2 !! p = Some o →
          Demo.Equal (esClient o) Demo.clientC = false) ∧
  Observe Demo.Equal Demo.unknown Demo.es1 Demo.clientC Demo.world2 =
  (StopObserving Demo.es1 ≫=
     λ _, Observe Demo.Equal Demo.unknown Demo.es1 Demo.clientC) Demo.world2.
Proof.
  assert (∀ p o, observers (mgr Demo.world2) !! Demo.es1 = Some p →
                 heap Demo.world2 !! p = Some o →
                 Demo.Equal (esClient o) Demo.clientC = false) as H1.
  { intros p o Hp Ho.
    assert (observers (mgr Demo.world2) !! Demo.es1 = Some 0) as H0
      by (vm_compute; reflexivity).
    pose proof (eq_trans (eq_sym H0) Hp) as Heq. injection Heq as <-.
    injection Ho as <-. vm_compute. reflexivity. }
  split; [exact H1|].
  exact (Observe_as_stop_then_observe Demo.Equal Demo.unknown Demo.es1
           Demo.clientC Demo.world2 H1).
Defined.

Lemma Observe_then_StopObserving_witness :
  registry_inv Demo.world2 ∧
  ∃ p w1 w2,
    Observe Demo.Equal Demo.unknown Demo.es1 Demo.clientC Demo.world2
      = Some (p, w1) ∧
    StopObserving Demo.es1 w1 = Some (tt, w2) ∧
    observers (mgr w2) = delete Demo.es1 (observers (mgr Demo.world2)) ∧
    ∃ o, heap w2 !! p = Some o ∧ stopped o = true.
Proof.
  split; [exact world2_inv|].
  destruct (Observe_then_StopObserving Demo.Equal Demo.unknown Demo.es1
              Demo.clientC Demo.world2 world2_inv)
    as (p & w1 & w2 & HO & HS & Hdel & _ & Hst & _).
  exists p, w1, w2. split; [exact HO|]. split; [exact HS|].
  split; [exact Hdel|exact Hst].
Defined.

Lemma List_follows_witness :
  (∃ w', Observe Demo.Equal Demo.unknown Demo.es1 Demo.clientA Demo.world3
           = Some (2, w') ∧
         ∃ l l', List Demo.world3 = Some (l, Demo.world3) ∧
                 List w' = Some (l', w') ∧ length l' = S (length l)) ∧
  (StopObserving Demo.es1 Demo.world2 = Some (tt, Demo.world3) ∧
   ∃ l l', List Demo.world2 = Some (l, Demo.world2) ∧
           List Demo.world3 = Some (l', Demo.world3) ∧
           ∀ n, n ∈ l' ↔ n ≠ Demo.es1 ∧ n ∈ l).
Proof.
  split.
  - assert (∃ w', Observe Demo.Equal Demo.unknown Demo.es1 Demo.clientA
                    Demo.world3 = Some (2, w'))
      as [w' HO] by (eexists; vm_compute; reflexivity).
    exists w'. split; [exact HO|].
    destruct (proj1 (List_follows Demo.Equal Demo.unknown Demo.es1 Demo.world3)
                Demo.clientA 2 w' HO) as (l & l' & Hl & Hl' & _ & Hlen).
    exists l, l'. split; [exact Hl|]. split; [exact Hl'|].
    assert (observers (mgr Demo.world3) !! Demo.es1 = None) as Hnone
      by (vm_compute; reflexivity).
    rewrite Hnone in Hlen. exact Hlen.
  - assert (StopObserving Demo.es1 Demo.world2 = Some (tt, Demo.world3)) as HS
      by (vm_compute; reflexivity).
    split; [exact HS|].
    destruct (proj2 (List_follows Demo.Equal Demo.unknown Demo.es1 Demo.world2)
                Demo.world3 HS) as (l & l' & Hl & Hl' & Hin & _).
    exists l, l'. split; [exact Hl|]. split; [exact Hl'|exact Hin].
Defined.

Lemma operations_never_rebind_witness :
  run Demo.Equal Demo.unknown
    [OpStopObserving Demo.es1; OpObserve Demo.es1 Demo.clientC]
    Demo.world2 ≠ None ∧
  ∃ w', run Demo.Equal Demo.unknown
          [OpStopObserving Demo.es1; OpObserve Demo.es1 Demo.clientC]
          Demo.world2 = Some (tt, w') ∧
        settings (mgr w') = settings (mgr Demo.world2) ∧
        ∃ o', heap w' !! 0 = Some o' ∧ esClient o' = Demo.clientA.
Proof.
  assert (∃ w', run Demo.Equal Demo.unknown
                  [OpStopObserving Demo.es1; OpObserve Demo.es1 Demo.clientC]
                  Demo.world2 = Some (tt, w'))
    as [w' Hrun] by (eexists; vm_compute; reflexivity).
  split; [by rewrite Hrun|]. exists w'. split; [exact Hrun|].
  destruct (operations_never_rebind Demo.Equal Demo.unknown _ Demo.world2 w'
              Hrun) as [Hs Hall].
  split; [exact Hs|].
  destruct (Hall 0 _ eq_refl) as (o' & Ho' & _ & He & _).
  exists o'. split; [exact Ho'|exact He].
Defined.
